(** * OCR timeout protection: a shallow embedding of
      [tesseract_timeout_fix_working.py]

    The module wraps one blocking call (the OCR engine) in a worker thread,
    waits for it with [thread.join(timeout)], and flattens every failure
    into [None] at the profile level.  The embedding keeps:

    - Python values and exceptions (class family, message, truthiness);
    - the OS process table that [psutil] inspects;
    - a logical clock in milliseconds: an operation either finishes after
      some duration with a value or an exception, or never finishes;
    - the manager's instance fields, passed explicitly from call to call;
    - the float arithmetic of the resize computation: the exact rational
      result, rounded to the nearest binary64 float (ties to even);
      overflow and underflow, far from the sizes of images, are left out.

    [print] calls are not modelled.  [run_with_timeout] is one call on a
    manager none of whose earlier workers is still running;
    [run_with_timeout_shared] is a call on a manager that workers of
    earlier, timed-out calls still hold.  The process table lists the
    processes present when a call is dispatched: those the callable
    itself starts are not in it.  Timeouts are below
    [threading.TIMEOUT_MAX]. *)

From Stdlib Require Import ZArith NArith QArith Qround Qpower Lia Lqa Bool List String Ascii.
From Stdlib Require Import DecimalString.
Import ListNotations.

Local Open Scope N_scope.

(** ** Python data *)

(** A Python [str]: a sequence of code points. *)
Definition str := list N.

Definition codes (s : string) : str :=
  map N_of_ascii (list_ascii_of_string s).

(** [str.isspace] on one code point (the characters [str.strip] removes). *)
Definition is_space (c : N) : bool :=
  ((9 <=? c) && (c <=? 13)) || ((28 <=? c) && (c <=? 32))
  || (c =? 133) || (c =? 160) || (c =? 5760)
  || ((8192 <=? c) && (c <=? 8202))
  || (c =? 8232) || (c =? 8233) || (c =? 8239) || (c =? 8287) || (c =? 12288).

Fixpoint lstrip (s : str) : str :=
  match s with
  | [] => []
  | c :: s' => if is_space c then lstrip s' else s
  end.

Definition rstrip (s : str) : str := rev (lstrip (rev s)).

(** [s.strip()] *)
Definition strip (s : str) : str := rstrip (lstrip s).

(** The three exception families the module's handlers tell apart:
    [except TimeoutError] matches the first, [except Exception] the first
    two, and neither matches a class that derives from [BaseException]
    only ([SystemExit], [KeyboardInterrupt], [GeneratorExit]). *)
Inductive exc_class : Type :=
| TimeoutError_cls (name : string)
| Exception_cls (name : string)
| BaseException_cls (name : string).

Record exn : Type := mk_exn {
  exc_cls : exc_class;
  exc_msg : string;          (* str(e) *)
  exc_bool : bool            (* bool(e): true unless the class overrides it *)
}.

Definition isinstance_TimeoutError (e : exn) : bool :=
  match exc_cls e with TimeoutError_cls _ => true | _ => false end.

Definition isinstance_Exception (e : exn) : bool :=
  match exc_cls e with BaseException_cls _ => false | _ => true end.

Record image : Type := mk_image {
  img_mode : string;
  img_width : Z;
  img_height : Z;
  img_decode_error : option string   (* pixel data that fails to load *)
}.

Inductive pyval : Type :=
| PyNone
| PyBool (b : bool)
| PyInt (z : Z)
| PyStr (s : str)
| PyImage (i : image).

(** Truth value testing, as [if x] does it. *)
Definition truthy (v : pyval) : bool :=
  match v with
  | PyNone => false
  | PyBool b => b
  | PyInt z => negb (z =? 0)%Z
  | PyStr s => match s with [] => false | _ => true end
  | PyImage _ => true
  end.

Definition is_not_None (v : pyval) : bool :=
  match v with PyNone => false | _ => true end.

(** The outcome of a call: a returned value or a raised exception. *)
Inductive outcome (A : Type) : Type :=
| Ret (a : A)
| Raise (e : exn).
Arguments Ret {A} a.
Arguments Raise {A} e.

Definition bind {A B} (r : outcome A) (k : A -> outcome B) : outcome B :=
  match r with
  | Ret a => k a
  | Raise e => Raise e
  end.

Notation "x <- r ;; k" := (bind r (fun x => k))
  (at level 61, r at next level, right associativity).

(** What a blocking call does on the logical clock. *)
Inductive behaviour (A : Type) : Type :=
| Finishes (d : N) (r : outcome A)  (* after [d] ms, with a value or an exception *)
| Hangs.                            (* never returns *)
Arguments Finishes {A} d r.
Arguments Hangs {A}.

(** A callable, applied to its positional and keyword arguments. *)
Definition callable : Type :=
  list pyval -> list (string * pyval) -> behaviour pyval.

(** ** The process table seen through psutil *)

Inductive on_terminate : Type :=
| Dies (delay : N)     (* exits [delay] ms after the terminate signal *)
| Denied.              (* psutil.AccessDenied *)

Record process : Type := mk_process {
  pid : N;
  pname : option string;     (* the executable name; None when not readable *)
  on_term : on_terminate
}.

Definition proc_table := list process.

Definition to_lower (c : ascii) : ascii :=
  let n := N_of_ascii c in
  if (65 <=? n) && (n <=? 90) then ascii_of_N (n + 32) else c.

Fixpoint lower (s : string) : string :=
  match s with
  | EmptyString => EmptyString
  | String c s' => String (to_lower c) (lower s')
  end.

Fixpoint prefixb (p s : string) : bool :=
  match p, s with
  | EmptyString, _ => true
  | String a p', String b s' => Ascii.eqb a b && prefixb p' s'
  | String _ _, EmptyString => false
  end.

(** [p in s] on strings. *)
Fixpoint contains (p s : string) : bool :=
  prefixb p s ||
  match s with
  | EmptyString => false
  | String _ s' => contains p s'
  end.

Definition is_tesseract (name : string) : bool :=
  contains "tesseract" (lower name).

(** ** TesseractTimeoutManager *)

(** Durations and timeouts are in milliseconds. *)
Record TesseractTimeoutManager : Type := mk_manager {
  timeout : Z;
  result : pyval;
  exception : option exn;
  process_pids : list N
}.

(** [__init__] *)
Definition TesseractTimeoutManager_init (timeout : Z) : TesseractTimeoutManager :=
  mk_manager timeout PyNone None [].

Definition set_result (self : TesseractTimeoutManager) (v : pyval) :=
  mk_manager (timeout self) v (exception self) (process_pids self).

Definition set_exception (self : TesseractTimeoutManager) (e : exn) :=
  mk_manager (timeout self) (result self) (Some e) (process_pids self).

Definition set_process_pids (self : TesseractTimeoutManager) (l : list N) :=
  mk_manager (timeout self) (result self) (exception self) l.

(** The scan appends the pid of every process whose lower-cased name
    contains "tesseract"; a process without a readable name makes
    [.lower()] fail, and the bare [except] ends the scan there. *)
Fixpoint scan (tb : proc_table) (acc : list N) : list N :=
  match tb with
  | [] => acc
  | p :: tb' =>
      match pname p with
      | None => acc
      | Some n => scan tb' (if is_tesseract n then acc ++ [pid p] else acc)
      end
  end.

Definition _monitor_processes (self : TesseractTimeoutManager) (tb : proc_table)
  : TesseractTimeoutManager :=
  set_process_pids self (scan tb (process_pids self)).

(** [psutil.Process(pid)] *)
Definition find_process (tb : proc_table) (p : N) : option process :=
  find (fun q => pid q =? p) tb.

Definition remove_process (tb : proc_table) (p : N) : proc_table :=
  filter (fun q => negb (pid q =? p)) tb.

(** The grace period of [proc.wait(timeout=2)]. *)
Definition grace : N := 2000.

(** One round of the cleanup loop: the process table afterwards and the
    time spent.  A process of the table is running; NoSuchProcess,
    AccessDenied and TimeoutExpired are swallowed. *)
Definition cleanup_one (tb : proc_table) (p : N) : proc_table * N :=
  match find_process tb p with
  | None => (tb, 0)
  | Some q =>
      match pname q with
      | None => (tb, 0)
      | Some n =>
          if is_tesseract n then
            match on_term q with
            | Denied => (tb, 0)
            | Dies d => if d <=? grace then (remove_process tb p, d) else (tb, grace)
            end
          else (tb, 0)
      end
  end.

Fixpoint cleanup_loop (tb : proc_table) (pids : list N) : proc_table * N :=
  match pids with
  | [] => (tb, 0)
  | p :: pids' =>
      let '(tb1, c1) := cleanup_one tb p in
      let '(tb2, c2) := cleanup_loop tb1 pids' in
      (tb2, c1 + c2)
  end.

Definition _cleanup_processes (self : TesseractTimeoutManager) (tb : proc_table)
  : proc_table * N :=
  cleanup_loop tb (process_pids self).

(** The worker thread.  [Blocked self]: the call never returns, the
    worker stays inside it, with the fields as the scan left them.
    [Completed d c self tb]: the call ended after [d] ms, the cleanup of
    the [finally] clause took [c] more ms, and the thread ended with
    fields [self] and process table [tb]. *)
Inductive worker : Type :=
| Blocked (self : TesseractTimeoutManager)
| Completed (d : N) (c : N) (self : TesseractTimeoutManager) (tb : proc_table).

Definition _target_function (self : TesseractTimeoutManager) (tb : proc_table)
    (func : callable) (args : list pyval) (kwargs : list (string * pyval))
  : worker :=
  let self := _monitor_processes self tb in
  match func args kwargs with
  | Hangs => Blocked self
  | Finishes d r =>
      let self :=
        match r with
        | Ret v => set_result self v
        | Raise e => if isinstance_Exception e then set_exception self e else self
        end in
      let '(tb', c) := _cleanup_processes self tb in
      Completed d c self tb'
  end.

Definition digit3 (n : N) : string :=
  let d := NilZero.string_of_uint (N.to_uint n) in
  if n <? 10 then ("00" ++ d)%string else if n <? 100 then ("0" ++ d)%string else d.

(** Seconds of a millisecond count, as Python prints the float. *)
Definition fmt_seconds (ms : Z) : string :=
  let a := Z.abs_N ms in
  let frac := a mod 1000 in
  let f := if frac mod 100 =? 0 then NilZero.string_of_uint (N.to_uint (frac / 100))
           else if frac mod 10 =? 0 then substring 0 2 (digit3 frac)
           else digit3 frac in
  ((if (ms <? 0)%Z then "-" else "") ++
   NilZero.string_of_uint (N.to_uint (a / 1000)) ++ "." ++ f)%string.

Definition timeout_error (self : TesseractTimeoutManager) : exn :=
  mk_exn (TimeoutError_cls "TimeoutError")
         ("OCR operation timed out after " ++ fmt_seconds (timeout self) ++ " seconds")
         true.

(** What one call of [run_with_timeout] leaves behind. *)
Record run : Type := mk_run {
  run_outcome : outcome pyval;
  run_self : TesseractTimeoutManager;
  run_table : proc_table;
  run_elapsed : N
}.

Definition reset (self : TesseractTimeoutManager) : TesseractTimeoutManager :=
  mk_manager (timeout self) PyNone None [].

(** The timeout branch: the caller stopped waiting when the timeout had
    elapsed, runs the cleanup itself and raises.  When the worker is
    already inside its own cleanup at that moment, the caller is charged
    its whole cleanup on the table as it was at dispatch, an upper bound
    of what the two overlapping loops cost it. *)
Definition timed_out (self : TesseractTimeoutManager) (tb : proc_table) : run :=
  let '(tb', c) := _cleanup_processes self tb in
  mk_run (Raise (timeout_error self)) self tb' (Z.to_N (timeout self) + c).

Definition run_with_timeout (self : TesseractTimeoutManager) (tb : proc_table)
    (func : callable) (args : list pyval) (kwargs : list (string * pyval))
  : run :=
  let self := reset self in
  match _target_function self tb func args kwargs with
  | Blocked self1 =>
      (* thread.is_alive() *)
      timed_out self1 tb
  | Completed d c self2 tb2 =>
      if (Z.of_N (d + c) <=? timeout self2)%Z then
        match exception self2 with
        | Some e =>
            if exc_bool e then mk_run (Raise e) self2 tb2 (d + c)
            else mk_run (Ret (result self2)) self2 tb2 (d + c)
        | None => mk_run (Ret (result self2)) self2 tb2 (d + c)
        end
      else
        (* thread.is_alive(): the worker is in the call or in its cleanup *)
        timed_out (if (Z.of_N d <=? timeout self2)%Z then self2
                   else _monitor_processes self tb) tb
  end.

(** ** Collaborators: float arithmetic, PIL and the OCR engine *)

(** Floor of the binary logarithm of a positive rational. *)
Definition ilog2 (x : Q) : Z :=
  let e0 := (Z.log2 (Qnum x) - Z.log2 (Z.pos (Qden x)))%Z in
  if Qle_bool (2 ^ e0) x then e0 else (e0 - 1)%Z.

(** Rounding to the nearest integer, ties to even. *)
Definition round_half_even (q : Q) : Z :=
  let f := Qfloor q in
  match Qcompare (q - inject_Z f) (1 # 2) with
  | Lt => f
  | Gt => (f + 1)%Z
  | Eq => if Z.even f then f else (f + 1)%Z
  end.

(** A positive real as a float: 53 significant bits. *)
Definition round53_pos (x : Q) : Q :=
  let s := (2 ^ (ilog2 x - 52))%Q in
  (inject_Z (round_half_even (x / s)) * s)%Q.

(** The binary64 float nearest to [x]. *)
Definition round53 (x : Q) : Q :=
  match Qcompare x 0 with
  | Eq => 0%Q
  | Gt => round53_pos x
  | Lt => (- round53_pos (- x))%Q
  end.

Inductive open_result : Type :=
| Opened (i : image)
| OpenFailed (timed_out : bool) (name msg : string).
    (* an OSError of PIL or of the file system; [timed_out] for the
       TimeoutError family *)

Record env : Type := mk_env {
  (* Image.open *)
  Image_open : string -> open_result;
  (* pytesseract.image_to_string(image, config=...) *)
  image_to_string : image -> string -> behaviour str
}.

Definition os_error (name msg : string) : exn :=
  mk_exn (Exception_cls name) msg true.

(** [a / b] on two ints: true division, a float. *)
Definition truediv (a b : Z) : outcome Q :=
  if (b =? 0)%Z then Raise (os_error "ZeroDivisionError" "division by zero")
  else Ret (round53 (inject_Z a / inject_Z b)%Q).

(** [n * x] for an int and a float. *)
Definition mul_int_float (n : Z) (x : Q) : Q :=
  round53 (inject_Z n * x)%Q.

(** [min(a, b)]: [b] when [b < a], else [a]. *)
Definition py_min (a b : Q) : Q := if Qle_bool a b then a else b.

(** [int(x)]: truncation towards zero. *)
Definition int (x : Q) : Z := Z.quot (Qnum x) (Z.pos (Qden x)).

(** [image.convert(mode)] keeps the size; it loads the pixel data. *)
Definition convert (i : image) (mode : string) : outcome image :=
  match img_decode_error i with
  | Some msg => Raise (os_error "OSError" msg)
  | None => Ret (mk_image mode (img_width i) (img_height i) None)
  end.

(** [image.resize(size, filter)]: an image of exactly the requested size;
    PIL refuses a size with a dimension below one. *)
Definition resize (i : image) (size : Z * Z) : outcome image :=
  match img_decode_error i with
  | Some msg => Raise (os_error "OSError" msg)
  | None =>
      if ((fst size <? 1) || (snd size <? 1))%Z
      then Raise (os_error "ValueError" "height and width must be > 0")
      else Ret (mk_image (img_mode i) (fst size) (snd size) None)
  end.

(** The argument of the extractors: [Union[Image.Image, str]]. *)
Inductive image_arg : Type :=
| ArgPath (path : string)
| ArgImage (i : image).

Definition load (E : env) (a : image_arg) : outcome image :=
  match a with
  | ArgImage i => Ret i
  | ArgPath p =>
      match Image_open E p with
      | Opened i => Ret i
      | OpenFailed t name msg =>
          Raise (mk_exn (if t then TimeoutError_cls name else Exception_cls name) msg true)
      end
  end.

(** The resize step shared by the two profiles, with the profile's cap. *)
Definition new_size (cap : Z) (i : image) : outcome (Z * Z) :=
  r1 <- truediv cap (img_width i) ;;
  r2 <- truediv cap (img_height i) ;;
  let ratio := py_min r1 r2 in
  Ret (int (mul_int_float (img_width i) ratio),
       int (mul_int_float (img_height i) ratio)).

Definition downscale (cap : Z) (i : image) : outcome image :=
  if ((img_width i >? cap) || (img_height i >? cap))%Z then
    size <- new_size cap i ;;
    resize i size
  else Ret i.

(** ** WorkingQuickOCR *)

Record WorkingQuickOCR : Type := mk_quick {
  quick_timeout : Z;
  quick_timeout_manager : TesseractTimeoutManager;
  quick_tesseract_config : string
}.

Definition WorkingQuickOCR_init (timeout : Z) : WorkingQuickOCR :=
  mk_quick timeout (TesseractTimeoutManager_init timeout) "--oem 3 --psm 6".

Definition _preprocess_image (E : env) (a : image_arg) : outcome image :=
  image <- load E a ;;
  image <- (if String.eqb (img_mode image) "RGB" then Ret image
            else convert image "RGB") ;;
  downscale 2000 image.

Definition type_error : exn :=
  mk_exn (Exception_cls "TypeError") "bad arguments" true.

(** The engine call followed by [.strip()], as the callable handed to the
    manager. *)
Definition ocr_callable (E : env) (config : string) : callable :=
  fun args kwargs =>
    match args, kwargs with
    | [PyImage i], [] =>
        match image_to_string E i config with
        | Hangs => Hangs
        | Finishes d (Ret s) => Finishes d (Ret (PyStr (strip s)))
        | Finishes d (Raise e) => Finishes d (Raise e)
        end
    | _, _ => Finishes 0 (Raise type_error)
    end.

Definition _ocr_operation (E : env) (self : WorkingQuickOCR) : callable :=
  ocr_callable E (quick_tesseract_config self).

(** What a profile call leaves behind. *)
Record extraction (S : Type) : Type := mk_extraction {
  ext_outcome : outcome pyval;
  ext_self : S;
  ext_table : proc_table;
  ext_elapsed : N
}.
Arguments mk_extraction {S}.
Arguments ext_outcome {S}.
Arguments ext_self {S}.
Arguments ext_table {S}.
Arguments ext_elapsed {S}.

(** The two handlers of the profiles: [except TimeoutError] and
    [except Exception] both return None; anything else propagates. *)
Definition handle (e : exn) : outcome pyval :=
  if isinstance_TimeoutError e then Ret PyNone
  else if isinstance_Exception e then Ret PyNone
  else Raise e.

Definition extract_text (E : env) (self : WorkingQuickOCR) (tb : proc_table)
    (a : image_arg) : extraction WorkingQuickOCR :=
  match _preprocess_image E a with
  | Raise e => mk_extraction (handle e) self tb 0
  | Ret processed_image =>
      let r := run_with_timeout (quick_timeout_manager self) tb
                 (_ocr_operation E self) [PyImage processed_image] [] in
      let self' := mk_quick (quick_timeout self) (run_self r)
                     (quick_tesseract_config self) in
      match run_outcome r with
      | Ret result =>
          mk_extraction (Ret (if truthy result then result else PyNone))
            self' (run_table r) (run_elapsed r)
      | Raise e => mk_extraction (handle e) self' (run_table r) (run_elapsed r)
      end
  end.

(** ** WorkingFastScreenOCR *)

Record WorkingFastScreenOCR : Type := mk_fast {
  fast_timeout : Z;
  fast_timeout_manager : TesseractTimeoutManager;
  fast_tesseract_config : string
}.

Definition double_quote : string := String (ascii_of_N 34) EmptyString.

Definition fast_config : string :=
  ("--oem 3 --psm 8 -c tessedit_char_whitelist=ABCDEFGHIJKLMNOPQRSTUVWXYZabcdefghijklmnopqrstuvwxyz0123456789.,!?:;()[]{}/-@#$%^&*+=<>~`"
   ++ double_quote ++ "' ")%string.

Definition WorkingFastScreenOCR_init (timeout : Z) : WorkingFastScreenOCR :=
  mk_fast timeout (TesseractTimeoutManager_init timeout) fast_config.

Definition _preprocess_for_speed (E : env) (a : image_arg) : outcome image :=
  image <- load E a ;;
  image <- (if String.eqb (img_mode image) "L" then Ret image
            else convert image "L") ;;
  downscale 1500 image.

Definition _fast_ocr_operation (E : env) (self : WorkingFastScreenOCR) : callable :=
  ocr_callable E (fast_tesseract_config self).

Definition extract_screen_text (E : env) (self : WorkingFastScreenOCR)
    (tb : proc_table) (a : image_arg) : extraction WorkingFastScreenOCR :=
  match _preprocess_for_speed E a with
  | Raise e => mk_extraction (handle e) self tb 0
  | Ret processed_image =>
      let r := run_with_timeout (fast_timeout_manager self) tb
                 (_fast_ocr_operation E self) [PyImage processed_image] [] in
      let self' := mk_fast (fast_timeout self) (run_self r)
                     (fast_tesseract_config self) in
      match run_outcome r with
      | Ret result =>
          mk_extraction (Ret (if truthy result then result else PyNone))
            self' (run_table r) (run_elapsed r)
      | Raise e => mk_extraction (handle e) self' (run_table r) (run_elapsed r)
      end
  end.

(** ** WorkingOCRBatch *)

Record WorkingOCRBatch : Type := mk_batch {
  quick_ocr : WorkingQuickOCR;
  fast_ocr : WorkingFastScreenOCR
}.

(** [timeout_per_image * 0.8], to the millisecond: the float product
    can differ from it in the last binary place. *)
Definition WorkingOCRBatch_init (timeout_per_image : Z) : WorkingOCRBatch :=
  mk_batch (WorkingQuickOCR_init timeout_per_image)
           (WorkingFastScreenOCR_init (timeout_per_image * 8 / 10)).

(** One dict of the result list; [error = None] when the key is absent. *)
Record entry : Type := mk_entry {
  index : N;
  text : pyval;
  success : bool;
  error : option string
}.

Record batch_run : Type := mk_batch_run {
  batch_outcome : outcome (list entry);
  batch_self : WorkingOCRBatch;
  batch_table : proc_table
}.

(** One profile call on behalf of the batch, on the instance that
    [fast_mode] selects. *)
Definition extract_one (E : env) (self : WorkingOCRBatch) (tb : proc_table)
    (fast_mode : bool) (a : image_arg)
  : outcome pyval * WorkingOCRBatch * proc_table :=
  if fast_mode then
    let x := extract_screen_text E (fast_ocr self) tb a in
    (ext_outcome x, mk_batch (quick_ocr self) (ext_self x), ext_table x)
  else
    let x := extract_text E (quick_ocr self) tb a in
    (ext_outcome x, mk_batch (ext_self x) (fast_ocr self), ext_table x).

(** The body of the [for i, image in enumerate(images)] loop, from index
    [i] on, appending to [results]. *)
Fixpoint process_loop (E : env) (self : WorkingOCRBatch) (tb : proc_table)
    (fast_mode : bool) (i : N) (images : list image_arg) (results : list entry)
  : batch_run :=
  match images with
  | [] => mk_batch_run (Ret results) self tb
  | image :: images' =>
      let '(o, self', tb') := extract_one E self tb fast_mode image in
      match o with
      | Ret text =>
          process_loop E self' tb' fast_mode (i + 1) images'
            (results ++ [mk_entry i text (is_not_None text) None])
      | Raise e =>
          if isinstance_Exception e then
            process_loop E self' tb' fast_mode (i + 1) images'
              (results ++ [mk_entry i PyNone false (Some (exc_msg e))])
          else mk_batch_run (Raise e) self' tb'
      end
  end.

Definition process_images (E : env) (self : WorkingOCRBatch) (tb : proc_table)
    (images : list image_arg) (fast_mode : bool) : batch_run :=
  process_loop E self tb fast_mode 0 images [].

(** ** Vocabulary of the statements *)

(** The call returned or raised no later than [T] ms after it started. *)
Definition finished_within {A} (b : behaviour A) (T : Z) : bool :=
  match b with
  | Finishes d _ => (Z.of_N d <=? T)%Z
  | Hangs => false
  end.

(** Time the cleanup loop takes on the pids a scan of [tb] tracks. *)
Definition cleanup_cost (tb : proc_table) : N :=
  snd (cleanup_loop tb (scan tb [])).

(** The worker thread (the call, then the cleanup of its [finally]
    clause) ended no later than [T] ms after it started. *)
Definition worker_within {A} (tb : proc_table) (b : behaviour A) (T : Z) : bool :=
  match b with
  | Finishes d _ => (Z.of_N (d + cleanup_cost tb) <=? T)%Z
  | Hangs => false
  end.

Definition tesseract_proc (p : N) (t : on_terminate) : process :=
  mk_process p (Some "tesseract"%string) t.

Definition returns_after (d : N) (v : pyval) : callable :=
  fun _ _ => Finishes d (Ret v).

Definition raises_after (d : N) (e : exn) : callable :=
  fun _ _ => Finishes d (Raise e).

Definition never_returns : callable := fun _ _ => Hangs.

Definition SystemExit : exn := mk_exn (BaseException_cls "SystemExit") "0" true.

Definition ValueError (msg : string) : exn := mk_exn (Exception_cls "ValueError") msg true.

(** What a profile returns once the preprocessed image reached the
    engine: the stripped text when the engine returned in time and the
    text is not empty, None otherwise. *)
Definition profile_value (tb : proc_table) (b : behaviour str) (T : Z) : pyval :=
  match b with
  | Finishes d (Ret s) =>
      if (Z.of_N (d + cleanup_cost tb) <=? T)%Z then
        match strip s with
        | [] => PyNone
        | _ :: _ => PyStr (strip s)
        end
      else PyNone
  | _ => PyNone
  end.

(** The engine call failed: it raised, or had not returned when the
    timeout elapsed. *)
Definition engine_failed (b : behaviour str) (T : Z) : bool :=
  match b with
  | Finishes d (Ret _) => negb (Z.of_N d <=? T)%Z
  | Finishes d (Raise _) => true
  | Hangs => true
  end.

(** An environment with no file behind any path, and the given engine. *)
Definition env_with (engine : image -> string -> behaviour str) : env :=
  mk_env (fun _ => OpenFailed false "FileNotFoundError" "no such file")
         engine.

(** The 400 x 100 test image of the module's self-test. *)
Definition test_img : image := mk_image "RGB" 400 100 None.

Definition engine_hangs : image -> string -> behaviour str := fun _ _ => Hangs.

Definition engine_raises (e : exn) : image -> string -> behaviour str :=
  fun _ _ => Finishes 50 (Raise e).

Definition engine_reads (s : string) : image -> string -> behaviour str :=
  fun _ _ => Finishes 50 (Ret (codes s)).

Definition TesseractError : exn :=
  mk_exn (Exception_cls "TesseractError") "(1, 'Error opening data file')" true.

(** The preprocessing, the engine configuration and the timeout of the
    profile that [fast_mode] selects in a batch. *)
Definition batch_preprocess (E : env) (fast_mode : bool) (a : image_arg) : outcome image :=
  if fast_mode then _preprocess_for_speed E a else _preprocess_image E a.

Definition batch_config (self : WorkingOCRBatch) (fast_mode : bool) : string :=
  if fast_mode then fast_tesseract_config (fast_ocr self)
  else quick_tesseract_config (quick_ocr self).

Definition batch_timeout (self : WorkingOCRBatch) (fast_mode : bool) : Z :=
  if fast_mode then timeout (fast_timeout_manager (fast_ocr self))
  else timeout (quick_timeout_manager (quick_ocr self)).

(** The text a batch records for one image, processed while the process
    table is [tb]. *)
Definition item_value (E : env) (self : WorkingOCRBatch) (fast_mode : bool)
    (tb : proc_table) (a : image_arg) : pyval :=
  match batch_preprocess E fast_mode a with
  | Raise _ => PyNone
  | Ret p =>
      profile_value tb (image_to_string E p (batch_config self fast_mode))
        (batch_timeout self fast_mode)
  end.


(** Two batches that differ in transient manager state only. *)
Definition same_conf (s1 s2 : WorkingOCRBatch) : Prop :=
  forall fast_mode,
    batch_config s1 fast_mode = batch_config s2 fast_mode /\
    batch_timeout s1 fast_mode = batch_timeout s2 fast_mode.

(** The unit roundoff of binary64, 2^-53. *)
Definition unit_roundoff : Q := 1 # 9007199254740992.

(** Each new dimension is the exactly scaled one, [d * cap / max w h],
    or up to one pixel below it. *)
Definition within_one_pixel (cap w h w' h' : Z) : Prop :=
  let M := Z.max w h in
  (w * cap - M <= w' * M <= w * cap)%Z /\ (h * cap - M <= h' * M <= h * cap)%Z.

(** What a preprocessing step with the given cap makes of the size of
    image [i]: [j] is the image handed to the engine. *)
Definition scaled_to (cap : Z) (i j : image) : Prop :=
  ((img_width i > cap \/ img_height i > cap)%Z ->
   (img_width j <= cap)%Z /\ (img_height j <= cap)%Z /\
   within_one_pixel cap (img_width i) (img_height i) (img_width j) (img_height j)) /\
  ((img_width i <= cap /\ img_height i <= cap)%Z ->
   img_width j = img_width i /\ img_height j = img_height i).

(** A 4000 x 3000 photograph, and a 2105 x 1000 banner. *)
Definition photo : image := mk_image "RGB" 4000 3000 None.

Definition banner : image := mk_image "RGB" 2105 1000 None.

(** [n] tesseract processes, pids 0 to n-1, none of which exits within
    the grace period. *)
Definition stuck_table (n : nat) : proc_table :=
  map (fun k => tesseract_proc (N.of_nat k) (Dies 5000)) (seq 0 n).

(** ** Successive calls on one manager *)

(** A worker that an earlier, timed-out call left running.  It holds
    the same manager; its callable ends [ab_left] ms after the start of
    the next call, with [ab_end].  (A worker whose callable never ends
    stores nothing and is left out.) *)
Record abandoned : Type := mk_abandoned {
  ab_left : N;
  ab_end : outcome pyval
}.

(** What a worker stores on the manager when its callable ends: the
    [try] and [except Exception] clauses of [_target_function]. *)
Definition store (self : TesseractTimeoutManager) (r : outcome pyval)
  : TesseractTimeoutManager :=
  match r with
  | Ret v => set_result self v
  | Raise e => if isinstance_Exception e then set_exception self e else self
  end.

(** The stores on the shared manager, each with its time, in the order
    of time; of two at the same time the one listed first is first. *)
Fixpoint insert_write (w : N * outcome pyval) (ws : list (N * outcome pyval))
  : list (N * outcome pyval) :=
  match ws with
  | [] => [w]
  | x :: ws' => if fst w <? fst x then w :: ws else x :: insert_write w ws'
  end.

Definition in_time_order (ws : list (N * outcome pyval)) : list (N * outcome pyval) :=
  fold_left (fun acc w => insert_write w acc) ws [].

(** The fields once every store due by time [t] has been made. *)
Definition stored_by (t : Z) (ws : list (N * outcome pyval))
    (self : TesseractTimeoutManager) : TesseractTimeoutManager :=
  fold_left (fun s w => store s (snd w))
    (filter (fun w => (Z.of_N (fst w) <=? t)%Z) (in_time_order ws)) self.

(** The abandoned workers whose callable has not ended [elapsed] ms
    later. *)
Definition still_running (elapsed : N) (others : list abandoned) : list abandoned :=
  map (fun a => mk_abandoned (ab_left a - elapsed) (ab_end a))
      (filter (fun a => elapsed <? ab_left a) others).

Record shared_run : Type := mk_shared_run {
  sh_run : run;
  sh_abandoned : list abandoned
}.

(** [run_with_timeout] on a manager that the workers [others] still
    hold.  The fields are reset, then every worker stores its result or
    exception when its callable ends; the caller reads the fields when
    its own worker has ended, or stops waiting at the timeout and leaves
    its worker to [sh_abandoned].  The cleanup an abandoned worker runs
    after its store is not modelled: it targets the pids the call
    tracks and cleans up itself. *)
Definition run_with_timeout_shared (self : TesseractTimeoutManager) (tb : proc_table)
    (others : list abandoned) (func : callable) (args : list pyval)
    (kwargs : list (string * pyval)) : shared_run :=
  let self := _monitor_processes (reset self) tb in
  let '(tb', c) := _cleanup_processes self tb in
  let writes := map (fun a => (ab_left a, ab_end a)) others in
  match func args kwargs with
  | Hangs =>
      let elapsed := Z.to_N (timeout self) + c in
      mk_shared_run
        (mk_run (Raise (timeout_error self)) (stored_by (timeout self) writes self)
           tb' elapsed)
        (still_running elapsed others)
  | Finishes d r =>
      let writes := writes ++ [(d, r)] in
      if (Z.of_N (d + c) <=? timeout self)%Z then
        let self := stored_by (Z.of_N (d + c)) writes self in
        mk_shared_run
          (mk_run
             match exception self with
             | Some e => if exc_bool e then Raise e else Ret (result self)
             | None => Ret (result self)
             end
             self tb' (d + c))
          (still_running (d + c) others)
      else
        let elapsed := Z.to_N (timeout self) + c in
        mk_shared_run
          (mk_run (Raise (timeout_error self)) (stored_by (timeout self) writes self)
             tb' elapsed)
          (still_running elapsed others
           ++ (if elapsed <? d then [mk_abandoned (d - elapsed) r] else []))
  end.

(** Two calls in a row on the same manager: the second starts when the
    first has returned or raised. *)
Definition two_calls (self : TesseractTimeoutManager) (tb : proc_table)
    (func1 func2 : callable) : shared_run * shared_run :=
  let first := run_with_timeout_shared self tb [] func1 [] [] in
  let second :=
    run_with_timeout_shared (run_self (sh_run first)) (run_table (sh_run first))
      (sh_abandoned first) func2 [] [] in
  (first, second).

(** ** Vocabulary of the further properties *)

(** Every character of [s] is white space. *)
Definition all_space (s : str) : bool := forallb is_space s.

(** [t] is not empty and neither starts nor ends with white space. *)
Definition trimmed (t : str) : bool :=
  match t with
  | [] => false
  | c :: _ => negb (is_space c) && negb (is_space (last t c))
  end.

(** The process is not one the cleanup may terminate: its name is not
    readable or does not contain "tesseract". *)
Definition not_tesseract (q : process) : bool :=
  match pname q with
  | None => true
  | Some n => negb (is_tesseract n)
  end.

(** A tesseract process that exits within the grace period once it is
    told to terminate. *)
Definition yielding_tesseract (q : process) : bool :=
  match pname q, on_term q with
  | Some n, Dies d => is_tesseract n && (d <=? grace)
  | _, _ => false
  end.

Definition readable (q : process) : bool :=
  match pname q with Some _ => true | None => false end.

(** A desktop with an editor, two tesseract processes and a process
    whose name cannot be read. *)
Definition desktop : proc_table :=
  [ mk_process 10 (Some "gedit"%string) (Dies 5);
    mk_process 11 (Some "Tesseract-OCR"%string) (Dies 300);
    mk_process 12 None Denied;
    mk_process 13 (Some "tesseract"%string) (Dies 100) ].

(** A 5000 x 2 strip, and a grayscale page. *)
Definition ribbon : image := mk_image "RGB" 5000 2 None.

Definition gray_page : image := mk_image "L" 800 600 None.


(** ** The self-test of the module *)

(** [test_ocr_fix]: one call of each profile on a freshly drawn
    400 x 100 image; True when at least one of them returned a text. *)
Definition test_ocr_fix (E : env) (tb : proc_table) : outcome bool * proc_table :=
  let quick_ocr := WorkingQuickOCR_init 15000 in
  let x1 := extract_text E quick_ocr tb (ArgImage test_img) in
  match ext_outcome x1 with
  | Raise e => (Raise e, ext_table x1)
  | Ret result1 =>
      let fast_ocr := WorkingFastScreenOCR_init 8000 in
      let x2 := extract_screen_text E fast_ocr (ext_table x1) (ArgImage test_img) in
      match ext_outcome x2 with
      | Raise e => (Raise e, ext_table x2)
      | Ret result2 =>
          let success_count := List.length (filter truthy [result1; result2]) in
          (Ret (0 <? success_count)%nat, ext_table x2)
      end
  end.

(** ** A caller: AdvancedMonitoringSystem (advanced_enhancement_system.py) *)

Record AdvancedMonitoringSystem : Type := mk_monitoring {
  ocr_quick : option WorkingQuickOCR;
  ocr_fast : option WorkingFastScreenOCR
}.

(** [__init__], under the module flag [OCR_AVAILABLE]. *)
Definition AdvancedMonitoringSystem_init (OCR_AVAILABLE : bool)
  : AdvancedMonitoringSystem :=
  mk_monitoring (if OCR_AVAILABLE then Some (WorkingQuickOCR_init 10000) else None)
                (if OCR_AVAILABLE then Some (WorkingFastScreenOCR_init 5000) else None).

(** The handler [except Exception] of the caller. *)
Definition handle_screen (o : outcome pyval) : outcome pyval :=
  match o with
  | Ret v => Ret v
  | Raise e => if isinstance_Exception e then Ret PyNone else Raise e
  end.

(** [extract_screen_text_safe]; [grab] is what [ImageGrab.grab()] does:
    a screenshot or an OSError. *)
Definition extract_screen_text_safe (E : env)
    (OCR_AVAILABLE SCREEN_CAPTURE_AVAILABLE : bool) (grab : open_result)
    (self : AdvancedMonitoringSystem) (tb : proc_table) (fast_mode : bool)
  : outcome pyval * AdvancedMonitoringSystem * proc_table :=
  if negb OCR_AVAILABLE || negb SCREEN_CAPTURE_AVAILABLE then (Ret PyNone, self, tb)
  else
    match grab with
    | OpenFailed t name msg =>
        (handle_screen
           (Raise (mk_exn (if t then TimeoutError_cls name else Exception_cls name)
                     msg true)),
         self, tb)
    | Opened screen =>
        match (if fast_mode then ocr_fast self else None) with
        | Some f =>
            let x := extract_screen_text E f tb (ArgImage screen) in
            (handle_screen (ext_outcome x),
             mk_monitoring (ocr_quick self) (Some (ext_self x)), ext_table x)
        | None =>
            match ocr_quick self with
            | Some q =>
                let x := extract_text E q tb (ArgImage screen) in
                (handle_screen (ext_outcome x),
                 mk_monitoring (Some (ext_self x)) (ocr_fast self), ext_table x)
            | None => (Ret PyNone, self, tb)
            end
        end
    end.

(** A screenshot. *)
Definition screenshot : image := mk_image "RGB" 1920 1080 None.

(** ** A caller's tool: OCRIntegrationHelper (integrate_ocr_timeout_fix.py) *)

(** [s.split(sep)] for a separator of one character. *)
Fixpoint split_on (c : N) (s : str) : list str :=
  match s with
  | [] => [[]]
  | x :: s' =>
      if x =? c then [] :: split_on c s'
      else
        match split_on c s' with
        | l :: ls => (x :: l) :: ls
        | [] => [[x]]
        end
  end.

(** [sep.join(lines)] *)
Fixpoint join (sep : str) (lines : list str) : str :=
  match lines with
  | [] => []
  | l :: ls =>
      match ls with
      | [] => l
      | _ :: _ => l ++ sep ++ join sep ls
      end
  end.

(** [s.startswith(p)] *)
Fixpoint startswith (p s : str) : bool :=
  match p, s with
  | [], _ => true
  | a :: p', b :: s' => (a =? b) && startswith p' s'
  | _ :: _, [] => false
  end.

Definition newline : N := 10.

(** The first test of the loop of [apply_fixes_to_file]. *)
Definition import_like (line : str) : bool :=
  startswith (codes "import ") line || startswith (codes "from ") line
  || startswith (codes "try:") (strip line).

(** [line.strip() == ''] *)
Definition blank (line : str) : bool :=
  match strip line with [] => true | _ :: _ => false end.

Record split_state : Type := mk_split {
  import_lines : list str;
  other_lines : list str;
  found_import_section : bool
}.

(** One turn of the loop over [content.split(newline)]. *)
Definition split_step (st : split_state) (line : str) : split_state :=
  if import_like line then
    mk_split (import_lines st ++ [line]) (other_lines st) true
  else if found_import_section st && blank line then
    mk_split (import_lines st ++ [line]) (other_lines st) (found_import_section st)
  else
    let import_lines' :=
      if found_import_section st && negb (blank (last (import_lines st) []))
      then import_lines st ++ [[]]
      else import_lines st in
    mk_split import_lines' (other_lines st ++ [line]) false.

Definition split_imports (content : str) : split_state :=
  fold_left split_step (split_on newline content) (mk_split [] [] false).

(** The text rebuilt around the inserted [import_section], before the
    replacement patterns are applied to it. *)
Definition new_content (import_section content : str) : str :=
  let st := split_imports content in
  join [newline] (import_lines st) ++ import_section ++ [newline]
  ++ join [newline] (other_lines st).

(** A line that carries code or text: not blank. *)
Definition solid (line : str) : bool := negb (blank line).

(** * Properties *)

(** ** The manager *)

Lemma cleanup_one_cost (tb : proc_table) (p : N) :
  snd (cleanup_one tb p) <= grace.
Proof.
  unfold cleanup_one.
  destruct (find_process tb p) as [q|]; [|cbn; lia].
  destruct (pname q) as [n|]; [|cbn; lia].
  destruct (is_tesseract n); [|cbn; lia].
  destruct (on_term q) as [d|]; [|cbn; lia].
  destruct (d <=? grace) eqn:Hd; cbn.
  - apply N.leb_le in Hd. exact Hd.
  - unfold grace. lia.
Qed.

Lemma cleanup_loop_cost (pids : list N) :
  forall tb, snd (cleanup_loop tb pids) <= grace * N.of_nat (List.length pids).
Proof.
  induction pids as [|p pids IH]; intros tb.
  - cbn. lia.
  - cbn [cleanup_loop List.length].
    pose proof (cleanup_one_cost tb p) as H1.
    destruct (cleanup_one tb p) as [tb1 c1].
    specialize (IH tb1).
    destruct (cleanup_loop tb1 pids) as [tb2 c2].
    cbn [snd] in *. lia.
Qed.

Lemma timed_out_outcome (self : TesseractTimeoutManager) (tb : proc_table) :
  run_outcome (timed_out self tb) = Raise (timeout_error self).
Proof.
  unfold timed_out. destruct (_cleanup_processes self tb). reflexivity.
Qed.

Lemma timed_out_elapsed (self : TesseractTimeoutManager) (tb : proc_table) :
  run_elapsed (timed_out self tb)
  = Z.to_N (timeout self) + snd (cleanup_loop tb (process_pids self)).
Proof.
  unfold timed_out, _cleanup_processes.
  destruct (cleanup_loop tb (process_pids self)). reflexivity.
Qed.

Lemma timeout_error_reset (self : TesseractTimeoutManager) (l : list N) (v : pyval)
    (x : option exn) :
  timeout_error (mk_manager (timeout self) v x l) = timeout_error self.
Proof. reflexivity. Qed.

(** The outcome of [run_with_timeout] in closed form. *)
Lemma run_with_timeout_outcome (self : TesseractTimeoutManager) (tb : proc_table)
    (func : callable) (args : list pyval) (kwargs : list (string * pyval)) :
  run_outcome (run_with_timeout self tb func args kwargs)
  = match func args kwargs with
    | Hangs => Raise (timeout_error self)
    | Finishes d r =>
        if (Z.of_N (d + cleanup_cost tb) <=? timeout self)%Z then
          match r with
          | Ret v => Ret v
          | Raise e =>
              if isinstance_Exception e && exc_bool e then Raise e else Ret PyNone
          end
        else Raise (timeout_error self)
    end.
Proof.
  unfold run_with_timeout, _target_function.
  destruct (func args kwargs) as [d r|].
  - unfold _cleanup_processes, cleanup_cost.
    destruct r as [v|e]; [|destruct (isinstance_Exception e) eqn:He]; cbn;
      destruct (cleanup_loop tb (scan tb [])) as [tb' c]; cbn;
      destruct (Z.of_N (d + c) <=? timeout self)%Z; cbn;
      try rewrite timed_out_outcome;
      try (destruct (Z.of_N d <=? timeout self)%Z; reflexivity);
      try reflexivity.
    destruct (exc_bool e); reflexivity.
  - rewrite timed_out_outcome. reflexivity.
Qed.

Lemma finished_late_worker_late {A} (tb : proc_table) (b : behaviour A) (T : Z) :
  finished_within b T = false -> worker_within tb b T = false.
Proof.
  destruct b as [d r|]; cbn; [|reflexivity].
  intros H. apply Z.leb_gt in H. apply Z.leb_gt. lia.
Qed.

(** C1: whatever the callable and the timeout (so for every T > 0), a
    call that has not finished when the timeout elapses makes
    [run_with_timeout] raise a TimeoutError instead of returning. *)
Theorem run_with_timeout_raises_on_timeout
    (self : TesseractTimeoutManager) (tb : proc_table) (func : callable)
    (args : list pyval) (kwargs : list (string * pyval)) :
  (0 < timeout self)%Z ->
  finished_within (func args kwargs) (timeout self) = false ->
  let r := run_with_timeout self tb func args kwargs in
  run_outcome r = Raise (timeout_error self) /\
  isinstance_TimeoutError (timeout_error self) = true /\
  (forall v, run_outcome r <> Ret v).
Proof.
  intros _ Hlate r.
  assert (H : run_outcome r = Raise (timeout_error self)).
  { subst r. rewrite run_with_timeout_outcome.
    apply (finished_late_worker_late tb) in Hlate.
    destruct (func args kwargs) as [d o|]; [|reflexivity].
    cbn in Hlate. rewrite Hlate. reflexivity. }
  split; [exact H|]. split; [reflexivity|].
  intros v Hv. rewrite H in Hv. discriminate.
Qed.

Lemma run_with_timeout_raises_on_timeout_witness :
  run_outcome (run_with_timeout (TesseractTimeoutManager_init 1000) []
                 never_returns [PyInt 1] [])
  = Raise (timeout_error (TesseractTimeoutManager_init 1000)).
Proof.
  apply (run_with_timeout_raises_on_timeout (TesseractTimeoutManager_init 1000) []
           never_returns [PyInt 1] []); reflexivity.
Defined.

(** When the callable returns [V] and the worker thread (the call
    followed by the cleanup of its [finally] clause) ends within the
    timeout, [run_with_timeout] returns exactly [V]; the callable is
    applied to the very [args] and [kwargs] of the call. *)
Lemma run_with_timeout_returns_value
    (self : TesseractTimeoutManager) (tb : proc_table) (func : callable)
    (args : list pyval) (kwargs : list (string * pyval)) (d : N) (V : pyval) :
  func args kwargs = Finishes d (Ret V) ->
  worker_within tb (func args kwargs) (timeout self) = true ->
  run_outcome (run_with_timeout self tb func args kwargs) = Ret V.
Proof.
  intros Hf Hw. rewrite run_with_timeout_outcome.
  rewrite Hf in *. cbn in Hw. rewrite Hw. reflexivity.
Qed.

(** C2: the code breaks the claim at this input.  With a timeout of
    1000 ms the callable returns 42 after 100 ms, and the worker stores
    it in [result]; but a tesseract process that was running at dispatch
    takes 1500 ms to exit, the worker is still waiting for it in its
    [finally] clause when the timeout elapses, and the caller gets
    "OCR operation timed out after 1.0 seconds" instead of 42. *)
Lemma run_with_timeout_cleanup_outlasts_timeout :
  let self := TesseractTimeoutManager_init 1000 in
  let func := returns_after 100 (PyInt 42) in
  let r := run_with_timeout self [tesseract_proc 7 (Dies 1500)] func [] [] in
  func [] [] = Finishes 100 (Ret (PyInt 42)) /\
  finished_within (func [] []) (timeout self) = true /\
  result (run_self r) = PyInt 42 /\
  run_outcome r
  = Raise (mk_exn (TimeoutError_cls "TimeoutError")
             "OCR operation timed out after 1.0 seconds" true) /\
  run_outcome r <> Ret (PyInt 42).
Proof.
  cbv zeta. repeat split; try reflexivity. vm_compute. discriminate.
Qed.

(** C3, as amended: when the callable raises [E], an instance of
    [Exception] that is not falsy, and the worker thread ends within the
    timeout, [run_with_timeout] raises [E] itself. *)
Theorem run_with_timeout_reraises
    (self : TesseractTimeoutManager) (tb : proc_table) (func : callable)
    (args : list pyval) (kwargs : list (string * pyval)) (d : N) (E : exn) :
  func args kwargs = Finishes d (Raise E) ->
  isinstance_Exception E = true ->
  exc_bool E = true ->
  worker_within tb (func args kwargs) (timeout self) = true ->
  run_outcome (run_with_timeout self tb func args kwargs) = Raise E.
Proof.
  intros Hf HE Hb Hw. rewrite run_with_timeout_outcome.
  rewrite Hf in *. cbn in Hw. rewrite Hw, HE, Hb. reflexivity.
Qed.

Lemma run_with_timeout_reraises_witness :
  run_outcome (run_with_timeout (TesseractTimeoutManager_init 1000) []
                 (raises_after 100 (ValueError "bad image")) [] [])
  = Raise (ValueError "bad image").
Proof.
  apply (run_with_timeout_reraises (TesseractTimeoutManager_init 1000) []
           (raises_after 100 (ValueError "bad image")) [] [] 100); reflexivity.
Defined.

(** C3 as stated fails: a callable that raises SystemExit after 100 ms,
    within the timeout of 1000 ms and with no process to clean up, makes
    [run_with_timeout] return None; [except Exception] in the worker
    does not catch it and nothing is raised to the caller.  And a
    ValueError raised after 100 ms is replaced by a TimeoutError when
    the worker's cleanup outlasts the timeout. *)
Lemma run_with_timeout_reraises_counterexample :
  let self := TesseractTimeoutManager_init 1000 in
  (raises_after 100 SystemExit [] [] = Finishes 100 (Raise SystemExit) /\
   worker_within [] (raises_after 100 SystemExit [] []) (timeout self) = true /\
   run_outcome (run_with_timeout self [] (raises_after 100 SystemExit) [] [])
   = Ret PyNone) /\
  (finished_within (raises_after 100 (ValueError "bad image") [] []) (timeout self) = true /\
   run_outcome (run_with_timeout self [tesseract_proc 7 (Dies 1500)]
                  (raises_after 100 (ValueError "bad image")) [] [])
   = Raise (timeout_error self)).
Proof. cbv zeta. repeat split; reflexivity. Qed.

Lemma store_keeps (self : TesseractTimeoutManager) (r : outcome pyval) :
  timeout (store self r) = timeout self /\
  process_pids (store self r) = process_pids self.
Proof.
  destruct r as [v|e]; cbn; [|destruct (isinstance_Exception e)]; split; reflexivity.
Qed.

Lemma stored_by_single (t : Z) (d : N) (r : outcome pyval)
    (self : TesseractTimeoutManager) :
  stored_by t [(d, r)] self = if (Z.of_N d <=? t)%Z then store self r else self.
Proof.
  unfold stored_by, in_time_order. cbn [fold_left insert_write filter fst].
  destruct (Z.of_N d <=? t)%Z; reflexivity.
Qed.

(** With no abandoned worker, a call on a shared manager is the call
    of [run_with_timeout]. *)
Lemma run_with_timeout_shared_alone (self : TesseractTimeoutManager) (tb : proc_table)
    (func : callable) (args : list pyval) (kwargs : list (string * pyval)) :
  sh_run (run_with_timeout_shared self tb [] func args kwargs)
  = run_with_timeout self tb func args kwargs.
Proof.
  unfold run_with_timeout_shared, run_with_timeout, _target_function.
  set (self0 := _monitor_processes (reset self) tb).
  destruct (func args kwargs) as [d r|].
  - change (match r with
            | Ret v => set_result self0 v
            | Raise e => if isinstance_Exception e then set_exception self0 e else self0
            end) with (store self0 r).
    destruct (store_keeps self0 r) as [HT Hp].
    unfold timed_out, _cleanup_processes. rewrite Hp.
    destruct (cleanup_loop tb (process_pids self0)) as [tb' c] eqn:Hc.
    rewrite HT. cbn [map app]. rewrite !stored_by_single.
    destruct (Z.of_N (d + c) <=? timeout self0)%Z eqn:Hw; cbn [sh_run].
    + assert (Hd : (Z.of_N d <=? Z.of_N (d + c))%Z = true) by (apply Z.leb_le; lia).
      rewrite Hd. destruct (exception (store self0 r)) as [e|]; [|reflexivity].
      destruct (exc_bool e); reflexivity.
    + destruct (Z.of_N d <=? timeout self0)%Z.
      * rewrite Hp, Hc, HT. unfold timeout_error. rewrite HT. reflexivity.
      * rewrite Hc. reflexivity.
  - unfold timed_out, _cleanup_processes.
    destruct (cleanup_loop tb (process_pids self0)) as [tb' c]. reflexivity.
Qed.

(** The exception an abandoned worker stores while the next call waits
    is the one that call raises, though its own callable returned. *)
Lemma abandoned_exception_is_raised (self : TesseractTimeoutManager) (tb : proc_table)
    (t d : N) (e : exn) (v : pyval) (func : callable)
    (args : list pyval) (kwargs : list (string * pyval)) :
  func args kwargs = Finishes d (Ret v) ->
  isinstance_Exception e = true ->
  exc_bool e = true ->
  (Z.of_N t <= Z.of_N (d + cleanup_cost tb) <= timeout self)%Z ->
  run_outcome (sh_run (run_with_timeout_shared self tb [mk_abandoned t (Raise e)]
                         func args kwargs))
  = Raise e.
Proof.
  intros Hf He Hb [Ht HT]. unfold run_with_timeout_shared, _cleanup_processes, cleanup_cost in *.
  cbn [_monitor_processes reset set_process_pids process_pids timeout].
  destruct (cleanup_loop tb (scan tb [])) as [tb' c]. cbn [snd] in *.
  rewrite Hf. cbn [timeout map app ab_left ab_end].
  apply Z.leb_le in HT. rewrite HT. cbn [sh_run run_outcome].
  assert (Hd : (Z.of_N d <=? Z.of_N (d + c))%Z = true) by (apply Z.leb_le; lia).
  apply Z.leb_le in Ht.
  unfold stored_by, in_time_order. cbn [fold_left insert_write fst].
  destruct (d <? t); cbn [filter fst]; rewrite Ht, Hd;
    cbn [fold_left snd store]; rewrite He; cbn; rewrite Hb; reflexivity.
Qed.

Lemma abandoned_exception_is_raised_example :
  run_outcome (sh_run (run_with_timeout_shared (TesseractTimeoutManager_init 1000) []
                         [mk_abandoned 500 (Raise (ValueError "old"))]
                         (returns_after 800 (PyInt 42)) [] []))
  = Raise (ValueError "old").
Proof.
  apply (abandoned_exception_is_raised (TesseractTimeoutManager_init 1000) [] 500 800
           (ValueError "old") (PyInt 42)); [reflexivity | reflexivity | reflexivity |].
  cbn. lia.
Defined.

(** C8: the code breaks the claim at this input.  On one manager with a
    timeout of 1000 ms, a first call whose callable raises
    ValueError("old") after 1500 ms times out and leaves its worker
    running; a second call follows at once with a callable that returns
    42 after 800 ms.  The second call resets [result], [exception] and
    [process_pids]; 500 ms later the abandoned worker stores its
    ValueError in [exception], and the second call raises it instead of
    returning 42, which the same call returns on a manager of its
    own. *)
Lemma run_with_timeout_abandoned_worker_leaks :
  let self := TesseractTimeoutManager_init 1000 in
  let calls := two_calls self [] (raises_after 1500 (ValueError "old"))
                 (returns_after 800 (PyInt 42)) in
  let first := fst calls in
  let second := snd calls in
  run_outcome (sh_run first) = Raise (timeout_error self) /\
  sh_abandoned first = [mk_abandoned 500 (Raise (ValueError "old"))] /\
  (result (reset (run_self (sh_run first))) = PyNone /\
   exception (reset (run_self (sh_run first))) = None /\
   process_pids (reset (run_self (sh_run first))) = []) /\
  run_outcome (sh_run second) = Raise (ValueError "old") /\
  run_outcome (run_with_timeout self [] (returns_after 800 (PyInt 42)) [] [])
  = Ret (PyInt 42).
Proof. cbv zeta. repeat split; reflexivity. Qed.

(** C9, as amended: for a callable that never returns and a timeout
    T >= 0, [run_with_timeout] raises its TimeoutError after T plus the
    time of its own cleanup, which is at most the grace period of 2 s
    for every tracked process; with no tesseract process running at
    dispatch the caller waits exactly T. *)
Theorem run_with_timeout_bounded_wait
    (self : TesseractTimeoutManager) (tb : proc_table) (func : callable)
    (args : list pyval) (kwargs : list (string * pyval)) :
  func args kwargs = Hangs ->
  (0 <= timeout self)%Z ->
  let r := run_with_timeout self tb func args kwargs in
  run_outcome r = Raise (timeout_error self) /\
  run_elapsed r = Z.to_N (timeout self) + cleanup_cost tb /\
  run_elapsed r <= Z.to_N (timeout self) + grace * N.of_nat (List.length (scan tb [])) /\
  (scan tb [] = [] -> run_elapsed r = Z.to_N (timeout self)).
Proof.
  intros Hf _ r.
  assert (He : run_elapsed r = Z.to_N (timeout self) + cleanup_cost tb).
  { subst r. unfold run_with_timeout, _target_function. rewrite Hf.
    rewrite timed_out_elapsed. reflexivity. }
  split.
  - subst r. rewrite run_with_timeout_outcome, Hf. reflexivity.
  - split; [exact He|]. split.
    + rewrite He. unfold cleanup_cost.
      pose proof (cleanup_loop_cost (scan tb []) tb). lia.
    + intros Hs. rewrite He. unfold cleanup_cost. rewrite Hs. cbn. lia.
Qed.

Lemma run_with_timeout_bounded_wait_witness :
  run_elapsed (run_with_timeout (TesseractTimeoutManager_init 1000)
                 [tesseract_proc 7 (Dies 300); tesseract_proc 8 Denied]
                 never_returns [] [])
  <= 1000 + grace * 2.
Proof.
  apply (run_with_timeout_bounded_wait (TesseractTimeoutManager_init 1000)
           [tesseract_proc 7 (Dies 300); tesseract_proc 8 Denied]
           never_returns [] []); [reflexivity | cbn; lia].
Defined.

(** C9 as stated fails: with a timeout of 1000 ms, a callable that never
    returns and one tracked tesseract process that does not exit on the
    terminate signal, the caller gets its TimeoutError after 3000 ms:
    the cleanup before the [raise] waits the whole grace period. *)
Lemma run_with_timeout_bounded_wait_counterexample :
  let self := TesseractTimeoutManager_init 1000 in
  let r := run_with_timeout self [tesseract_proc 7 (Dies 5000)] never_returns [] [] in
  never_returns [] [] = Hangs /\
  run_outcome r = Raise (timeout_error self) /\
  run_elapsed r = Z.to_N (timeout self) + 2000.
Proof. cbv zeta. repeat split; reflexivity. Qed.

(** The wait beyond the timeout grows with the number of tracked
    processes: no bound on it holds for every process table. *)
Lemma scan_stuck (tb : proc_table) :
  Forall (fun q => pname q = Some "tesseract"%string) tb ->
  forall acc, scan tb acc = acc ++ map pid tb.
Proof.
  induction 1 as [|q tb Hq _ IH]; intros acc; cbn.
  - now rewrite app_nil_r.
  - rewrite Hq. change (is_tesseract "tesseract") with true. cbn.
    rewrite IH, <- app_assoc. reflexivity.
Qed.

Lemma cleanup_loop_stuck (tb : proc_table) :
  Forall (fun q => pname q = Some "tesseract"%string /\ on_term q = Dies 5000) tb ->
  forall pids, incl pids (map pid tb) ->
  cleanup_loop tb pids = (tb, grace * N.of_nat (List.length pids)).
Proof.
  intros Hall. induction pids as [|p pids IH]; intros Hin.
  - reflexivity.
  - cbn [cleanup_loop List.length].
    assert (H1 : cleanup_one tb p = (tb, grace)).
    { unfold cleanup_one, find_process.
      destruct (find (fun q => pid q =? p) tb) as [q|] eqn:Hf.
      - apply find_some in Hf. destruct Hf as [Hq _].
        rewrite Forall_forall in Hall. destruct (Hall q Hq) as [-> ->].
        reflexivity.
      - exfalso. assert (Hp : In p (map pid tb)) by (apply Hin; now left).
        apply in_map_iff in Hp. destruct Hp as (q & Hq1 & Hq2).
        pose proof (find_none _ _ Hf q Hq2) as Hn. cbn in Hn.
        rewrite Hq1, N.eqb_refl in Hn. discriminate. }
    rewrite H1, IH by (intros x Hx; apply Hin; now right).
    f_equal. lia.
Qed.

Lemma wait_beyond_timeout_unbounded (n : nat) :
  run_elapsed (run_with_timeout (TesseractTimeoutManager_init 1000) (stuck_table n)
                 never_returns [] [])
  = 1000 + 2000 * N.of_nat n.
Proof.
  unfold run_with_timeout, _target_function. cbn [never_returns].
  rewrite timed_out_elapsed. cbn [timeout reset TesseractTimeoutManager_init
    _monitor_processes set_process_pids process_pids].
  assert (Hall : Forall (fun q => pname q = Some "tesseract"%string /\ on_term q = Dies 5000)
                   (stuck_table n)).
  { apply Forall_forall. intros q Hq. apply in_map_iff in Hq.
    destruct Hq as (k & <- & _). split; reflexivity. }
  rewrite scan_stuck by (eapply Forall_impl; [|exact Hall]; now intros q [H _]).
  rewrite cleanup_loop_stuck by (assumption || apply incl_refl).
  cbn [snd app]. unfold stuck_table. rewrite !length_map, length_seq.
  unfold grace. lia.
Qed.

(** ** The two profiles *)

Lemma handle_Exception (e : exn) :
  isinstance_Exception e = true -> handle e = Ret PyNone.
Proof.
  unfold handle. intros ->. destruct (isinstance_TimeoutError e); reflexivity.
Qed.

Lemma load_raises_Exception (E : env) (a : image_arg) (e : exn) :
  load E a = Raise e -> isinstance_Exception e = true.
Proof.
  destruct a as [p|i]; cbn; [|discriminate].
  destruct (Image_open E p) as [i|t name msg]; [discriminate|].
  intros [= <-]. destruct t; reflexivity.
Qed.

Lemma convert_raises_Exception (i : image) (m : string) (e : exn) :
  convert i m = Raise e -> isinstance_Exception e = true.
Proof.
  unfold convert. destruct (img_decode_error i); [|discriminate].
  intros [= <-]. reflexivity.
Qed.

Lemma downscale_raises_Exception (cap : Z) (i : image) (e : exn) :
  downscale cap i = Raise e -> isinstance_Exception e = true.
Proof.
  unfold downscale, new_size, truediv, resize.
  destruct (_ || _)%bool; [|discriminate].
  destruct (img_width i =? 0)%Z; cbn; [intros [= <-]; reflexivity|].
  destruct (img_height i =? 0)%Z; cbn; [intros [= <-]; reflexivity|].
  destruct (img_decode_error i); [intros [= <-]; reflexivity|].
  destruct (_ || _)%bool; [intros [= <-]; reflexivity|discriminate].
Qed.

Lemma preprocess_image_raises_Exception (E : env) (a : image_arg) (e : exn) :
  _preprocess_image E a = Raise e -> isinstance_Exception e = true.
Proof.
  unfold _preprocess_image.
  destruct (load E a) as [i|e0] eqn:Hl; cbn.
  - destruct (String.eqb (img_mode i) "RGB"); cbn.
    + apply downscale_raises_Exception.
    + destruct (convert i "RGB") as [j|e1] eqn:Hc; cbn.
      * apply downscale_raises_Exception.
      * intros [= <-]. eapply convert_raises_Exception; eassumption.
  - intros [= <-]. eapply load_raises_Exception; eassumption.
Qed.

Lemma preprocess_for_speed_raises_Exception (E : env) (a : image_arg) (e : exn) :
  _preprocess_for_speed E a = Raise e -> isinstance_Exception e = true.
Proof.
  unfold _preprocess_for_speed.
  destruct (load E a) as [i|e0] eqn:Hl; cbn.
  - destruct (String.eqb (img_mode i) "L"); cbn.
    + apply downscale_raises_Exception.
    + destruct (convert i "L") as [j|e1] eqn:Hc; cbn.
      * apply downscale_raises_Exception.
      * intros [= <-]. eapply convert_raises_Exception; eassumption.
  - intros [= <-]. eapply load_raises_Exception; eassumption.
Qed.

(** What the guarded engine call hands back to a profile, after the
    profile's own handlers and its [result if result else None]. *)
Lemma guarded_ocr_value (E : env) (cfg : string) (m : TesseractTimeoutManager)
    (tb : proc_table) (p : image) :
  match run_outcome (run_with_timeout m tb (ocr_callable E cfg) [PyImage p] []) with
  | Ret v => Ret (if truthy v then v else PyNone)
  | Raise e => handle e
  end
  = Ret (profile_value tb (image_to_string E p cfg) (timeout m)).
Proof.
  rewrite run_with_timeout_outcome. unfold ocr_callable, profile_value.
  destruct (image_to_string E p cfg) as [d [s|e]|].
  - destruct (_ <=? _)%Z; [|reflexivity].
    cbn. destruct (strip s); reflexivity.
  - destruct (_ <=? _)%Z; [|reflexivity].
    destruct (isinstance_Exception e) eqn:He; cbn; [|reflexivity].
    destruct (exc_bool e); cbn; [|reflexivity].
    now apply handle_Exception.
  - reflexivity.
Qed.

Lemma extract_text_outcome (E : env) (self : WorkingQuickOCR) (tb : proc_table)
    (a : image_arg) :
  ext_outcome (extract_text E self tb a)
  = match _preprocess_image E a with
    | Raise _ => Ret PyNone
    | Ret p =>
        Ret (profile_value tb (image_to_string E p (quick_tesseract_config self))
               (timeout (quick_timeout_manager self)))
    end.
Proof.
  unfold extract_text.
  destruct (_preprocess_image E a) as [p|e] eqn:Hp.
  - rewrite <- guarded_ocr_value. unfold _ocr_operation.
    destruct (run_outcome _); reflexivity.
  - cbn. apply handle_Exception. eapply preprocess_image_raises_Exception; eassumption.
Qed.

Lemma extract_screen_text_outcome (E : env) (self : WorkingFastScreenOCR)
    (tb : proc_table) (a : image_arg) :
  ext_outcome (extract_screen_text E self tb a)
  = match _preprocess_for_speed E a with
    | Raise _ => Ret PyNone
    | Ret p =>
        Ret (profile_value tb (image_to_string E p (fast_tesseract_config self))
               (timeout (fast_timeout_manager self)))
    end.
Proof.
  unfold extract_screen_text.
  destruct (_preprocess_for_speed E a) as [p|e] eqn:Hp.
  - rewrite <- guarded_ocr_value. unfold _fast_ocr_operation.
    destruct (run_outcome _); reflexivity.
  - cbn. apply handle_Exception. eapply preprocess_for_speed_raises_Exception; eassumption.
Qed.

Lemma profile_value_failed (tb : proc_table) (b : behaviour str) (T : Z) :
  engine_failed b T = true \/ worker_within tb b T = false ->
  profile_value tb b T = PyNone.
Proof.
  destruct b as [d [s|e]|]; cbn; try reflexivity.
  intros [H|H].
  - apply negb_true_iff, Z.leb_gt in H.
    destruct (_ <=? _)%Z eqn:Hw; [|reflexivity].
    apply Z.leb_le in Hw. lia.
  - now rewrite H.
Qed.

(** C4: [extract_text] and [extract_screen_text] never raise, whatever
    the image or path; they return None when the image cannot be
    prepared, when the engine raises, and on a timeout: when the engine
    has not returned, or the worker has not ended, by the timeout. *)
Theorem profiles_return_None_on_failure
    (E : env) (q : WorkingQuickOCR) (f : WorkingFastScreenOCR)
    (tb : proc_table) (a : image_arg) :
  let x := extract_text E q tb a in
  let y := extract_screen_text E f tb a in
  ((exists v, ext_outcome x = Ret v) /\ (exists v, ext_outcome y = Ret v)) /\
  ((forall e, _preprocess_image E a = Raise e -> ext_outcome x = Ret PyNone) /\
   (forall p, _preprocess_image E a = Ret p ->
      let b := image_to_string E p (quick_tesseract_config q) in
      let T := timeout (quick_timeout_manager q) in
      engine_failed b T = true \/ worker_within tb b T = false ->
      ext_outcome x = Ret PyNone)) /\
  ((forall e, _preprocess_for_speed E a = Raise e -> ext_outcome y = Ret PyNone) /\
   (forall p, _preprocess_for_speed E a = Ret p ->
      let b := image_to_string E p (fast_tesseract_config f) in
      let T := timeout (fast_timeout_manager f) in
      engine_failed b T = true \/ worker_within tb b T = false ->
      ext_outcome y = Ret PyNone)).
Proof.
  intros x y. subst x y.
  rewrite extract_text_outcome, extract_screen_text_outcome.
  repeat split.
  - destruct (_preprocess_image E a); eauto.
  - destruct (_preprocess_for_speed E a); eauto.
  - intros e ->. reflexivity.
  - intros p -> b T Hfail. subst b T. now rewrite profile_value_failed.
  - intros e ->. reflexivity.
  - intros p -> b T Hfail. subst b T. now rewrite profile_value_failed.
Qed.

Lemma profiles_return_None_on_failure_witness :
  ext_outcome (extract_text (env_with engine_hangs) (WorkingQuickOCR_init 15000) []
                 (ArgImage test_img)) = Ret PyNone /\
  ext_outcome (extract_screen_text (env_with (engine_raises TesseractError))
                 (WorkingFastScreenOCR_init 8000) [] (ArgImage test_img)) = Ret PyNone.
Proof.
  split.
  - destruct (profiles_return_None_on_failure (env_with engine_hangs)
                (WorkingQuickOCR_init 15000) (WorkingFastScreenOCR_init 8000) []
                (ArgImage test_img)) as (_ & (_ & H) & _).
    apply (H test_img); [reflexivity | left; reflexivity].
  - destruct (profiles_return_None_on_failure (env_with (engine_raises TesseractError))
                (WorkingQuickOCR_init 15000) (WorkingFastScreenOCR_init 8000) []
                (ArgImage test_img)) as (_ & _ & (_ & H)).
    apply (H (mk_image "L" 400 100 None)); [reflexivity | left; reflexivity].
Defined.




(** ** The batch *)

Lemma timed_out_self (self : TesseractTimeoutManager) (tb : proc_table) :
  run_self (timed_out self tb) = self.
Proof. unfold timed_out. destruct (_cleanup_processes self tb). reflexivity. Qed.

Lemma run_with_timeout_keeps_timeout (self : TesseractTimeoutManager)
    (tb : proc_table) (func : callable) (args : list pyval)
    (kwargs : list (string * pyval)) :
  timeout (run_self (run_with_timeout self tb func args kwargs)) = timeout self.
Proof.
  unfold run_with_timeout, _target_function.
  destruct (func args kwargs) as [d r|].
  - destruct (_cleanup_processes _ tb) as [tb' c].
    destruct (_ <=? _)%Z.
    + destruct r as [v|e]; [reflexivity|].
      destruct (isinstance_Exception e); cbn; [destruct (exc_bool e)|]; reflexivity.
    + rewrite timed_out_self.
      destruct (_ <=? _)%Z; [|reflexivity].
      destruct r as [v|e]; [reflexivity|].
      destruct (isinstance_Exception e); reflexivity.
  - rewrite timed_out_self. reflexivity.
Qed.

Lemma extract_text_keeps_conf (E : env) (self : WorkingQuickOCR) (tb : proc_table)
    (a : image_arg) :
  let self' := ext_self (extract_text E self tb a) in
  timeout (quick_timeout_manager self') = timeout (quick_timeout_manager self) /\
  quick_tesseract_config self' = quick_tesseract_config self.
Proof.
  unfold extract_text.
  destruct (_preprocess_image E a) as [p|e]; [|split; reflexivity].
  destruct (run_outcome _); cbn; split; try reflexivity;
    apply run_with_timeout_keeps_timeout.
Qed.

Lemma extract_screen_text_keeps_conf (E : env) (self : WorkingFastScreenOCR)
    (tb : proc_table) (a : image_arg) :
  let self' := ext_self (extract_screen_text E self tb a) in
  timeout (fast_timeout_manager self') = timeout (fast_timeout_manager self) /\
  fast_tesseract_config self' = fast_tesseract_config self.
Proof.
  unfold extract_screen_text.
  destruct (_preprocess_for_speed E a) as [p|e]; [|split; reflexivity].
  destruct (run_outcome _); cbn; split; try reflexivity;
    apply run_with_timeout_keeps_timeout.
Qed.

Lemma extract_one_spec (E : env) (self : WorkingOCRBatch) (tb : proc_table)
    (fast_mode : bool) (a : image_arg) :
  exists self' tb',
    extract_one E self tb fast_mode a
    = (Ret (item_value E self fast_mode tb a), self', tb') /\
    same_conf self' self.
Proof.
  unfold extract_one, item_value, batch_preprocess, batch_config, batch_timeout.
  destruct fast_mode.
  - pose proof (extract_screen_text_keeps_conf E (fast_ocr self) tb a) as [H1 H2].
    pose proof (extract_screen_text_outcome E (fast_ocr self) tb a) as H3.
    do 2 eexists. split.
    + rewrite H3. destruct (_preprocess_for_speed E a); reflexivity.
    + intros [|]; cbn; auto.
  - pose proof (extract_text_keeps_conf E (quick_ocr self) tb a) as [H1 H2].
    pose proof (extract_text_outcome E (quick_ocr self) tb a) as H3.
    do 2 eexists. split.
    + rewrite H3. destruct (_preprocess_image E a); reflexivity.
    + intros [|]; cbn; auto.
Qed.










(** ** Preprocessing *)

Section Downscale.

Local Open Scope Q_scope.

Lemma round_half_even_bounds (q : Q) :
  q - (1 # 2) <= inject_Z (round_half_even q) /\
  inject_Z (round_half_even q) <= q + (1 # 2).
Proof.
  unfold round_half_even.
  pose proof (Qfloor_le q) as H1. pose proof (Qlt_floor q) as H2.
  rewrite inject_Z_plus in H2. change (inject_Z 1) with 1 in H2.
  set (f := Qfloor q) in *.
  destruct (Qcompare (q - inject_Z f) (1 # 2)) eqn:Hc.
  - apply Qeq_alt in Hc.
    destruct (Z.even f); [|rewrite inject_Z_plus; change (inject_Z 1) with 1];
      split; lra.
  - apply Qlt_alt in Hc. split; lra.
  - apply Qgt_alt in Hc. rewrite inject_Z_plus. change (inject_Z 1) with 1.
    split; lra.
Qed.

Lemma two_power_pos (z : Z) : 0 < 2 ^ z.
Proof. apply Qpower_0_lt. reflexivity. Qed.

Lemma two_power_split (a b : Z) : 2 ^ (a - b) * 2 ^ b == 2 ^ a.
Proof.
  rewrite <- Qpower_plus by discriminate.
  replace (a - b + b)%Z with a by lia. reflexivity.
Qed.

Lemma ilog2_le (x : Q) : 0 < x -> 2 ^ ilog2 x <= x.
Proof.
  intros Hx. unfold ilog2.
  set (e0 := (Z.log2 (Qnum x) - Z.log2 (Z.pos (Qden x)))%Z).
  destruct (Qle_bool (2 ^ e0) x) eqn:Ht.
  - now apply Qle_bool_iff.
  - clear Ht. destruct x as [n d]. cbn [Qnum Qden] in *.
    assert (Hn : (0 < n)%Z) by (unfold Qlt in Hx; cbn in Hx; lia).
    destruct (Z.log2_spec n Hn) as [Hn1 _].
    destruct (Z.log2_spec (Z.pos d) (Pos2Z.is_pos d)) as [_ Hd2].
    set (ln := Z.log2 n) in *. set (ld := Z.log2 (Z.pos d)) in *.
    assert (Hln : (0 <= ln)%Z) by apply Z.log2_nonneg.
    assert (Hld : (0 <= ld)%Z) by apply Z.log2_nonneg.
    pose proof (two_power_split ln (Z.succ ld)) as Hs.
    replace (ln - Z.succ ld)%Z with (e0 - 1)%Z in Hs by (unfold e0; lia).
    pose proof (Zpower_Qpower 2 ln Hln) as E1.
    pose proof (Zpower_Qpower 2 (Z.succ ld) ltac:(lia)) as E2.
    change (inject_Z 2) with 2 in E1, E2.
    rewrite <- E1, <- E2 in Hs.
    set (p := 2 ^ (e0 - 1)) in *.
    assert (Hp : 0 < p) by apply two_power_pos.
    assert (HA : inject_Z (2 ^ ln) <= inject_Z n) by (rewrite <- Zle_Qle; lia).
    assert (HB : inject_Z (Z.pos d) <= inject_Z (2 ^ Z.succ ld)) by (rewrite <- Zle_Qle; lia).
    assert (HD : 0 < inject_Z (Z.pos d)) by (change 0 with (inject_Z 0); rewrite <- Zlt_Qlt; lia).
    rewrite (Qmake_Qdiv n d).
    apply Qle_shift_div_l; [exact HD|].
    assert (p * inject_Z (Z.pos d) <= p * inject_Z (2 ^ Z.succ ld)) by nra.
    lra.
Qed.

(** Rounding to nearest has a relative error of at most the unit
    roundoff. *)
Lemma round53_accurate (x : Q) :
  0 < x ->
  x * (1 - unit_roundoff) <= round53 x /\ round53 x <= x * (1 + unit_roundoff).
Proof.
  intros Hx. unfold round53.
  destruct (Qcompare x 0) eqn:H0.
  { apply Qeq_alt in H0. lra. }
  { apply Qlt_alt in H0. lra. }
  clear H0. unfold round53_pos.
  pose proof (ilog2_le x Hx) as He.
  pose proof (two_power_split (ilog2 x) 52) as Hs.
  set (s := 2 ^ (ilog2 x - 52)) in *.
  assert (Hs0 : 0 < s) by apply two_power_pos.
  change (2 ^ 52) with (4503599627370496 # 1) in Hs.
  destruct (round_half_even_bounds (x / s)) as [H1 H2].
  set (m := inject_Z (round_half_even (x / s))) in *.
  assert (Hq : x / s * s == x) by (field; lra).
  set (q := x / s) in *.
  assert (G1 : (q - (1 # 2)) * s <= m * s) by (apply Qmult_le_compat_r; lra).
  assert (G2 : m * s <= (q + (1 # 2)) * s) by (apply Qmult_le_compat_r; lra).
  unfold unit_roundoff. split; lra.
Qed.

Lemma int_floor (y : Q) :
  0 <= y -> inject_Z (int y) <= y /\ y < inject_Z (int y) + 1.
Proof.
  intros Hy. unfold int.
  assert (Hn : (0 <= Qnum y)%Z).
  { unfold Qle in Hy. cbn in Hy. lia. }
  rewrite Z.quot_div_nonneg by lia.
  pose proof (Qfloor_le y) as H1. pose proof (Qlt_floor y) as H2.
  rewrite inject_Z_plus in H2. unfold Qfloor in H1, H2.
  destruct y as [n m]. cbn [Qnum Qden] in *. split; assumption.
Qed.

Lemma quotient_range (c d : Q) :
  1 <= c -> c <= 2000 -> 1 <= d -> d <= 2147483648 ->
  (1 # 2147483648) <= c / d /\ c / d <= 2000 /\ c / d * d == c.
Proof.
  intros Hc1 Hc2 Hd1 Hd2.
  assert (Hq : c / d * d == c) by (field; lra).
  set (q := c / d) in *.
  assert (0 <= q) by nra.
  repeat split; try assumption; nra.
Qed.

Lemma py_min_bounds (A q1 q2 r1 r2 : Q) :
  A == q1 \/ A == q2 -> A <= q1 -> A <= q2 ->
  q1 * (1 - unit_roundoff) <= r1 -> r1 <= q1 * (1 + unit_roundoff) ->
  q2 * (1 - unit_roundoff) <= r2 -> r2 <= q2 * (1 + unit_roundoff) ->
  A * (1 - unit_roundoff) <= py_min r1 r2 /\ py_min r1 r2 <= A * (1 + unit_roundoff).
Proof.
  unfold unit_roundoff, py_min. intros HA H1 H2 Ha Hb Hc Hd.
  destruct (Qle_bool r1 r2) eqn:Hm.
  - apply Qle_bool_iff in Hm. destruct HA as [HA|HA]; split; lra.
  - assert (Hlt : r2 < r1).
    { apply Qnot_le_lt. intros H. apply Qle_bool_iff in H. congruence. }
    destruct HA as [HA|HA]; split; lra.
Qed.

Lemma product_bounds (d M cap A ratio x y : Q) :
  1 <= d -> d <= M -> M <= 2147483648 -> 1 <= cap -> cap <= 2000 ->
  A * M == cap ->
  A * (1 - unit_roundoff) <= ratio -> ratio <= A * (1 + unit_roundoff) ->
  x == d * ratio ->
  x * (1 - unit_roundoff) <= y -> y <= x * (1 + unit_roundoff) ->
  d * cap - (1#2) <= y * M /\ y * M <= d * cap + (1#2).
Proof.
  intros Hd1 HdM HM Hc1 Hc2 HA Hr1 Hr2 Hx Hy1 Hy2. unfold unit_roundoff in *.
  assert (HA0 : 0 <= A) by nra.
  assert (HP : d * cap <= 2147483648 * 2000) by nra.
  assert (HP0 : 0 <= d * cap) by nra.
  assert (Hx1 : d * A * (1 - (1 # 9007199254740992)) <= x) by nra.
  assert (Hx2 : x <= d * A * (1 + (1 # 9007199254740992))) by nra.
  assert (HdA : 0 <= d * A) by nra.
  assert (Hyy1 : d * A * (1 - (1 # 9007199254740992)) * (1 - (1 # 9007199254740992)) <= y)
    by nra.
  assert (Hyy2 : y <= d * A * (1 + (1 # 9007199254740992)) * (1 + (1 # 9007199254740992)))
    by nra.
  assert (HdAM : d * A * M == d * cap) by (rewrite <- HA; ring).
  set (P := d * cap) in *.
  set (B := d * A) in *.
  assert (H1 : B * (1 - (1 # 9007199254740992)) * (1 - (1 # 9007199254740992)) * M <= y * M)
    by nra.
  assert (H2 : y * M <= B * (1 + (1 # 9007199254740992)) * (1 + (1 # 9007199254740992)) * M)
    by nra.
  assert (E1 : B * (1 - (1 # 9007199254740992)) * (1 - (1 # 9007199254740992)) * M
               == P * (1 - (1 # 9007199254740992)) * (1 - (1 # 9007199254740992))).
  { rewrite <- HdAM. ring. }
  assert (E2 : B * (1 + (1 # 9007199254740992)) * (1 + (1 # 9007199254740992)) * M
               == P * (1 + (1 # 9007199254740992)) * (1 + (1 # 9007199254740992))).
  { rewrite <- HdAM. ring. }
  rewrite E1 in H1. rewrite E2 in H2.
  split; lra.
Qed.

Lemma product_range (d M cap A ratio : Q) :
  1 <= d -> d <= M -> M <= 2147483648 -> 1 <= cap -> cap <= 2000 ->
  A * M == cap ->
  A * (1 - unit_roundoff) <= ratio -> ratio <= A * (1 + unit_roundoff) ->
  (1 # 4294967296) <= d * ratio /\ d * ratio <= 4294967296.
Proof.
  intros Hd1 HdM HM Hc1 Hc2 HA Hr1 Hr2. unfold unit_roundoff in *.
  assert (HA0 : 0 <= A) by nra.
  assert (HA1 : (1 # 2147483648) <= A) by nra.
  assert (HA2 : d * A <= cap) by nra.
  assert (Hr0 : (1 # 4294967296) <= ratio) by lra.
  split; nra.
Qed.

Lemma scaled_dimension (d M cap : Z) (ratio : Q) :
  (1 <= d <= M)%Z -> (M < 2147483648)%Z -> (1 <= cap <= 2000)%Z ->
  (inject_Z cap / inject_Z M) * (1 - unit_roundoff) <= ratio ->
  ratio <= (inject_Z cap / inject_Z M) * (1 + unit_roundoff) ->
  (d * cap - M <= int (mul_int_float d ratio) * M <= d * cap)%Z.
Proof.
  intros Hd HM Hcap Hr1 Hr2.
  assert (Qd1 : inject_Z 1 <= inject_Z d) by (rewrite <- Zle_Qle; lia).
  assert (QdM : inject_Z d <= inject_Z M) by (rewrite <- Zle_Qle; lia).
  assert (QM : inject_Z M <= inject_Z 2147483648) by (rewrite <- Zle_Qle; lia).
  assert (Qc1 : inject_Z 1 <= inject_Z cap) by (rewrite <- Zle_Qle; lia).
  assert (Qc2 : inject_Z cap <= inject_Z 2000) by (rewrite <- Zle_Qle; lia).
  change (inject_Z 1) with 1 in Qd1, Qc1.
  change (inject_Z 2147483648) with 2147483648 in QM.
  change (inject_Z 2000) with 2000 in Qc2.
  assert (QM1 : 1 <= inject_Z M) by lra.
  destruct (quotient_range (inject_Z cap) (inject_Z M) Qc1 Qc2 QM1 QM) as (_ & _ & HA).
  set (A := inject_Z cap / inject_Z M) in *.
  destruct (product_range _ _ _ _ _ Qd1 QdM QM Qc1 Qc2 HA Hr1 Hr2) as [Hx1 Hx2].
  unfold mul_int_float.
  destruct (round53_accurate (inject_Z d * ratio)) as [Hy1 Hy2]; [lra|].
  set (y := round53 (inject_Z d * ratio)) in *.
  destruct (product_bounds _ _ _ _ _ _ y Qd1 QdM QM Qc1 Qc2 HA Hr1 Hr2
              (Qeq_refl _) Hy1 Hy2) as [Hb1 Hb2].
  assert (Hy0 : 0 <= y) by (unfold unit_roundoff in *; nra).
  destruct (int_floor y Hy0) as [Hf1 Hf2].
  set (n := int y) in *.
  assert (Hn1 : inject_Z n * inject_Z M <= y * inject_Z M)
    by (apply Qmult_le_compat_r; lra).
  assert (Hn2 : y * inject_Z M <= (inject_Z n + 1) * inject_Z M)
    by (apply Qmult_le_compat_r; lra).
  assert (G1 : inject_Z (2 * (n * M)) <= inject_Z (2 * (d * cap) + 1)).
  { rewrite inject_Z_plus, !inject_Z_mult.
    change (inject_Z 2) with 2. change (inject_Z 1) with 1. lra. }
  assert (G2 : inject_Z (2 * (d * cap) + - (1)) <= inject_Z (2 * (n * M + M))).
  { rewrite inject_Z_plus, !inject_Z_mult, inject_Z_plus, !inject_Z_mult.
    change (inject_Z 2) with 2. change (inject_Z (- (1))) with (- (1)). lra. }
  rewrite <- Zle_Qle in G1, G2. lia.
Qed.

Lemma quotient_antitone (c d M : Q) :
  1 <= c -> 1 <= d -> d <= M -> c / M <= c / d.
Proof.
  intros Hc Hd HM.
  assert (H1 : c / M * M == c) by (field; lra).
  assert (H2 : c / d * d == c) by (field; lra).
  set (A := c / M) in *. set (q := c / d) in *.
  assert (0 <= A) by nra.
  assert (A * d <= A * M) by nra.
  nra.
Qed.

Lemma new_size_spec (cap : Z) (i : image) :
  (1 <= cap <= 2000)%Z ->
  (1 <= img_width i < 2147483648)%Z ->
  (1 <= img_height i < 2147483648)%Z ->
  exists w' h',
    new_size cap i = Ret (w', h') /\
    within_one_pixel cap (img_width i) (img_height i) w' h'.
Proof.
  intros Hcap Hw Hh. unfold new_size, truediv.
  destruct (Z.eqb_spec (img_width i) 0) as [H0|_]; [lia|].
  destruct (Z.eqb_spec (img_height i) 0) as [H0|_]; [lia|].
  cbn [bind]. do 2 eexists. split; [reflexivity|].
  set (w := img_width i) in *. set (h := img_height i) in *.
  set (M := Z.max w h).
  assert (Qw1 : inject_Z 1 <= inject_Z w) by (rewrite <- Zle_Qle; lia).
  assert (Qh1 : inject_Z 1 <= inject_Z h) by (rewrite <- Zle_Qle; lia).
  assert (QwM : inject_Z w <= inject_Z M) by (rewrite <- Zle_Qle; lia).
  assert (QhM : inject_Z h <= inject_Z M) by (rewrite <- Zle_Qle; lia).
  assert (Qw2 : inject_Z w <= inject_Z 2147483648) by (rewrite <- Zle_Qle; lia).
  assert (Qh2 : inject_Z h <= inject_Z 2147483648) by (rewrite <- Zle_Qle; lia).
  assert (Qc1 : inject_Z 1 <= inject_Z cap) by (rewrite <- Zle_Qle; lia).
  assert (Qc2 : inject_Z cap <= inject_Z 2000) by (rewrite <- Zle_Qle; lia).
  change (inject_Z 1) with 1 in *.
  change (inject_Z 2147483648) with 2147483648 in *.
  change (inject_Z 2000) with 2000 in *.
  destruct (quotient_range _ _ Qc1 Qc2 Qw1 Qw2) as (Ha1 & Ha2 & _).
  destruct (quotient_range _ _ Qc1 Qc2 Qh1 Qh2) as (Hb1 & Hb2 & _).
  destruct (round53_accurate (inject_Z cap / inject_Z w)) as [Hr1 Hr2]; [lra|].
  destruct (round53_accurate (inject_Z cap / inject_Z h)) as [Hs1 Hs2]; [lra|].
  assert (HA : inject_Z cap / inject_Z M == inject_Z cap / inject_Z w \/
               inject_Z cap / inject_Z M == inject_Z cap / inject_Z h).
  { unfold M. destruct (Z.max_spec w h) as [[_ ->]|[_ ->]]; [right|left]; reflexivity. }
  destruct (py_min_bounds _ _ _ _ _ HA
              (quotient_antitone _ _ _ Qc1 Qw1 QwM)
              (quotient_antitone _ _ _ Qc1 Qh1 QhM) Hr1 Hr2 Hs1 Hs2) as [Hm1 Hm2].
  split; apply scaled_dimension; try assumption; lia.
Qed.

Lemma downscale_spec (cap : Z) (i j : image) :
  (1 <= cap <= 2000)%Z ->
  (0 <= img_width i < 2147483648)%Z ->
  (0 <= img_height i < 2147483648)%Z ->
  downscale cap i = Ret j ->
  scaled_to cap i j.
Proof.
  intros Hcap Hw Hh. unfold downscale.
  destruct (_ || _)%bool eqn:Hbig.
  - apply Bool.orb_true_iff in Hbig.
    destruct (Z.eq_dec (img_width i) 0) as [Hw0|Hw0].
    { unfold new_size, truediv. rewrite Hw0. cbn. discriminate. }
    destruct (Z.eq_dec (img_height i) 0) as [Hh0|Hh0].
    { unfold new_size, truediv. rewrite Hh0.
      destruct (img_width i =? 0)%Z; cbn; discriminate. }
    destruct (new_size_spec cap i Hcap) as (w' & h' & -> & Hpx); [lia|lia|].
    cbn [bind]. unfold resize.
    destruct (img_decode_error i); [discriminate|].
    destruct (_ || _)%bool; [discriminate|].
    intros [= <-]. cbn [fst snd]. split.
    + intros _. cbn [img_width img_height].
      split; [|split; [|exact Hpx]]; unfold within_one_pixel in Hpx;
        cbv zeta in Hpx; destruct Hpx as [[_ Hx] [_ Hy]];
        set (M := Z.max (img_width i) (img_height i)) in *;
        assert (HM1 : (1 <= M)%Z) by (unfold M; lia);
        assert (HwM : (img_width i * cap <= M * cap)%Z)
          by (apply Z.mul_le_mono_nonneg_r; unfold M; lia);
        assert (HhM : (img_height i * cap <= M * cap)%Z)
          by (apply Z.mul_le_mono_nonneg_r; unfold M; lia);
        nia.
    + intros [H1 H2]. destruct Hbig as [H|H]; apply Z.gtb_lt in H; lia.
  - intros [= <-]. split; [|intros _; split; reflexivity].
    apply Bool.orb_false_iff in Hbig. destruct Hbig as [H1 H2].
    intros [H|H]; [rewrite Z.gtb_ltb in H1; apply Z.ltb_ge in H1|
                   rewrite Z.gtb_ltb in H2; apply Z.ltb_ge in H2]; lia.
Qed.

End Downscale.

Lemma convert_size (i j : image) (m : string) :
  convert i m = Ret j ->
  img_width j = img_width i /\ img_height j = img_height i.
Proof.
  unfold convert. destruct (img_decode_error i); [discriminate|].
  intros [= <-]. split; reflexivity.
Qed.

Lemma scaled_to_same_size (cap : Z) (i i' j : image) :
  img_width i' = img_width i -> img_height i' = img_height i ->
  scaled_to cap i' j -> scaled_to cap i j.
Proof. unfold scaled_to. intros -> ->. exact (fun H => H). Qed.

(** C7: for an input of PIL's sizes that is wider or taller than the
    cap, the image that [_preprocess_image] (cap 2000) or
    [_preprocess_for_speed] (cap 1500) hands to the engine has both
    dimensions at most the cap, each within one pixel of the input
    dimension scaled by cap / max(width, height); an input within the
    cap keeps its dimensions. *)
Theorem preprocess_downscale_invariant (E : env) (a : image_arg) (i : image) :
  load E a = Ret i ->
  (0 <= img_width i < 2147483648)%Z ->
  (0 <= img_height i < 2147483648)%Z ->
  (forall j, _preprocess_image E a = Ret j -> scaled_to 2000 i j) /\
  (forall j, _preprocess_for_speed E a = Ret j -> scaled_to 1500 i j).
Proof.
  intros Hl Hw Hh.
  unfold _preprocess_image, _preprocess_for_speed. rewrite Hl. cbn [bind].
  split; intros j.
  - destruct (String.eqb (img_mode i) "RGB").
    + cbn [bind]. apply downscale_spec; (assumption || lia).
    + destruct (convert i "RGB") as [i'|e] eqn:Hc; [|discriminate].
      cbn [bind]. destruct (convert_size i i' "RGB" Hc) as [Hcw Hch].
      intros Hd. apply (scaled_to_same_size 2000 i i' j Hcw Hch).
      apply downscale_spec; try assumption; lia.
  - destruct (String.eqb (img_mode i) "L").
    + cbn [bind]. apply downscale_spec; (assumption || lia).
    + destruct (convert i "L") as [i'|e] eqn:Hc; [|discriminate].
      cbn [bind]. destruct (convert_size i i' "L" Hc) as [Hcw Hch].
      intros Hd. apply (scaled_to_same_size 1500 i i' j Hcw Hch).
      apply downscale_spec; try assumption; lia.
Qed.

Lemma preprocess_downscale_invariant_witness :
  _preprocess_image (env_with engine_hangs) (ArgImage photo)
  = Ret (mk_image "RGB" 2000 1500 None) /\
  scaled_to 2000 photo (mk_image "RGB" 2000 1500 None) /\
  _preprocess_for_speed (env_with engine_hangs) (ArgImage photo)
  = Ret (mk_image "L" 1500 1125 None) /\
  scaled_to 1500 photo (mk_image "L" 1500 1125 None).
Proof.
  destruct (preprocess_downscale_invariant (env_with engine_hangs) (ArgImage photo)
              photo eq_refl)
    as [H1 H2]; [cbn; lia | cbn; lia |].
  split; [vm_compute; reflexivity|]. split; [apply H1; vm_compute; reflexivity|].
  split; [vm_compute; reflexivity|]. apply H2; vm_compute; reflexivity.
Defined.

(** Float rounding can cost the larger dimension a pixel: 2000 / 2105
    rounds down, and 2105 times it falls just short of 2000. *)
Example banner_loses_a_pixel :
  _preprocess_image (env_with engine_hangs) (ArgImage banner)
  = Ret (mk_image "RGB" 1999 950 None).
Proof. vm_compute. reflexivity. Qed.

(** * Further properties *)

(** ** [str.strip] as the profiles use it *)

Lemma lstrip_split (s : str) :
  exists a, s = a ++ lstrip s /\ all_space a = true.
Proof.
  induction s as [|c s IH].
  - exists []. split; reflexivity.
  - cbn [lstrip]. destruct (is_space c) eqn:Hc.
    + destruct IH as (a & Ha & Hs). exists (c :: a). split.
      * cbn [app]. now rewrite <- Ha.
      * unfold all_space in *. cbn [forallb]. now rewrite Hc, Hs.
    + exists []. split; reflexivity.
Qed.

Lemma lstrip_head (s : str) (c : N) (t : str) :
  lstrip s = c :: t -> is_space c = false.
Proof.
  induction s as [|x s IH]; cbn [lstrip]; [discriminate|].
  destruct (is_space x) eqn:Hx; [exact IH|].
  intros [= <- _]. exact Hx.
Qed.

Lemma lstrip_app_solid (u v : str) (c : N) :
  is_space c = false -> lstrip (u ++ c :: v) = lstrip u ++ c :: v.
Proof.
  intros Hc. induction u as [|x u IH]; cbn [lstrip app].
  - now rewrite Hc.
  - destruct (is_space x); [exact IH|reflexivity].
Qed.

Lemma all_space_rev (a : str) : all_space (rev a) = all_space a.
Proof.
  unfold all_space. induction a as [|c a IH]; [reflexivity|].
  cbn [rev forallb]. rewrite forallb_app, IH. cbn. rewrite andb_true_r.
  apply andb_comm.
Qed.

Lemma rstrip_split (s : str) :
  exists b, s = rstrip s ++ b /\ all_space b = true.
Proof.
  unfold rstrip. destruct (lstrip_split (rev s)) as (a & Ha & Hs).
  exists (rev a). split.
  - rewrite <- rev_app_distr, <- Ha. now rewrite rev_involutive.
  - now rewrite all_space_rev.
Qed.

Lemma rstrip_solid_head (c : N) (t : str) :
  is_space c = false -> exists m, rstrip (c :: t) = c :: m.
Proof.
  intros Hc. unfold rstrip. cbn [rev].
  rewrite (lstrip_app_solid (rev t) [] c Hc), rev_app_distr. cbn.
  eexists. reflexivity.
Qed.

Lemma rstrip_last (s : str) (d : N) :
  rstrip s <> [] -> is_space (last (rstrip s) d) = false.
Proof.
  unfold rstrip. destruct (lstrip (rev s)) as [|x r] eqn:Hl; [now intros []|].
  intros _. cbn [rev]. rewrite last_last. eapply lstrip_head; eassumption.
Qed.

(** [strip] removes white space at both ends and nothing else. *)
Lemma strip_spec (s : str) :
  (exists pre post,
     s = pre ++ strip s ++ post /\ all_space pre = true /\ all_space post = true) /\
  (strip s = [] \/ trimmed (strip s) = true).
Proof.
  unfold strip. destruct (lstrip_split s) as (a & Ha & Hsa).
  destruct (rstrip_split (lstrip s)) as (b & Hb & Hsb). split.
  - exists a, b. split; [|split; assumption].
    rewrite <- Hb. exact Ha.
  - destruct (lstrip s) as [|c t] eqn:Hl; [left; reflexivity|right].
    pose proof (lstrip_head s c t Hl) as Hc.
    destruct (rstrip_solid_head c t Hc) as (m & Hm).
    assert (Hne : rstrip (c :: t) <> []) by (rewrite Hm; discriminate).
    pose proof (rstrip_last (c :: t) c Hne) as Hlast.
    rewrite Hm in *. cbn [trimmed]. now rewrite Hc, Hlast.
Qed.

Lemma strip_all_space (s : str) :
  strip s = [] <-> all_space s = true.
Proof.
  destruct (strip_spec s) as ((pre & post & Hs & Hpre & Hpost) & H). split.
  - intros He. rewrite He in Hs. cbn in Hs. rewrite Hs.
    unfold all_space in *. now rewrite forallb_app, Hpre, Hpost.
  - intros Hall. destruct H as [H|H]; [exact H|].
    destruct (strip s) as [|c t]; [reflexivity|].
    rewrite Hs in Hall. unfold all_space in Hall.
    rewrite forallb_app in Hall. apply andb_true_iff in Hall as [_ Hall].
    cbn in Hall. cbn in H. destruct (is_space c); discriminate.
Qed.

Lemma profile_value_shape (tb : proc_table) (b : behaviour str) (T : Z) :
  profile_value tb b T = PyNone \/
  exists t d s pre post,
    profile_value tb b T = PyStr t /\ trimmed t = true /\
    b = Finishes d (Ret s) /\
    s = pre ++ t ++ post /\ all_space pre = true /\ all_space post = true.
Proof.
  destruct b as [d [s|e]|]; cbn; auto.
  destruct (_ <=? _)%Z; auto.
  destruct (strip_spec s) as ((pre & post & Hs & Hpre & Hpost) & [H|H]).
  - rewrite H. auto.
  - destruct (strip s) as [|c t] eqn:Hst; [discriminate|].
    right. exists (c :: t), d, s, pre, post. repeat split; assumption.
Qed.




(** ** Process monitoring and cleanup *)

Lemma scan_sound (tb : proc_table) :
  forall acc p, In p (scan tb acc) ->
    In p acc \/
    exists q n, In q tb /\ pid q = p /\ pname q = Some n /\ is_tesseract n = true.
Proof.
  induction tb as [|x tb IH]; intros acc p Hp; cbn [scan] in Hp; [now left|].
  destruct (pname x) as [n|] eqn:Hn; [|now left].
  destruct (IH _ p Hp) as [Ha|(q & m & Hq & Hpid & Hm & Ht)].
  - destruct (is_tesseract n) eqn:Ht; [|now left].
    apply in_app_or in Ha. destruct Ha as [Ha|[<-|[]]]; [now left|].
    right. exists x, n. repeat split; (assumption || now left).
  - right. exists q, m. repeat split; (assumption || now right).
Qed.

Lemma scan_keeps (tb : proc_table) :
  forall acc p, In p acc -> In p (scan tb acc).
Proof.
  induction tb as [|x tb IH]; intros acc p Hp; cbn [scan]; [exact Hp|].
  destruct (pname x) as [n|]; [|exact Hp].
  apply IH. destruct (is_tesseract n); [apply in_or_app; now left|exact Hp].
Qed.

Lemma scan_complete (tb : proc_table) :
  forallb readable tb = true ->
  forall acc q n, In q tb -> pname q = Some n -> is_tesseract n = true ->
    In (pid q) (scan tb acc).
Proof.
  induction tb as [|x tb IH]; intros Hr acc q n Hq Hn Ht; [destruct Hq|].
  cbn [forallb] in Hr. apply andb_true_iff in Hr as [Hx Hr].
  cbn [scan]. unfold readable in Hx.
  destruct (pname x) as [m|] eqn:Hm; [|discriminate].
  destruct Hq as [->|Hq].
  - rewrite Hn in Hm. injection Hm as <-. rewrite Ht.
    apply scan_keeps. apply in_or_app. right. now left.
  - now apply (IH Hr _ q n).
Qed.

(** X3: the pids [_monitor_processes] adds belong to processes of the
    table whose lower-cased name contains "tesseract"; and when every
    name of the table is readable, every such process is tracked. *)
Theorem monitor_tracks_tesseract (self : TesseractTimeoutManager) (tb : proc_table) :
  (forall p, In p (process_pids (_monitor_processes self tb)) ->
     In p (process_pids self) \/
     exists q n, In q tb /\ pid q = p /\ pname q = Some n /\ is_tesseract n = true) /\
  (forallb readable tb = true ->
   forall q n, In q tb -> pname q = Some n -> is_tesseract n = true ->
     In (pid q) (process_pids (_monitor_processes self tb))).
Proof.
  split.
  - intros p. apply scan_sound.
  - intros Hr q n. now apply scan_complete.
Qed.

Lemma monitor_tracks_tesseract_witness :
  In 11 (process_pids (_monitor_processes (TesseractTimeoutManager_init 1000)
                         [mk_process 10 (Some "gedit"%string) (Dies 5);
                          mk_process 11 (Some "Tesseract-OCR"%string) (Dies 300)])).
Proof.
  destruct (monitor_tracks_tesseract (TesseractTimeoutManager_init 1000)
              [mk_process 10 (Some "gedit"%string) (Dies 5);
               mk_process 11 (Some "Tesseract-OCR"%string) (Dies 300)]) as [_ H].
  apply (H eq_refl (mk_process 11 (Some "Tesseract-OCR"%string) (Dies 300))
           "Tesseract-OCR"%string); [right; now left | reflexivity | reflexivity].
Defined.

(** X4: the scan ends at the first process whose name cannot be read:
    whatever follows it in the process table, tesseract or not, is not
    tracked. *)
Theorem monitor_stops_at_unreadable_name
    (self : TesseractTimeoutManager) (tb1 tb2 : proc_table) (q : process) :
  pname q = None ->
  process_pids (_monitor_processes self (tb1 ++ q :: tb2))
  = process_pids (_monitor_processes self tb1).
Proof.
  intros Hq. cbn. generalize (process_pids self).
  induction tb1 as [|x tb1 IH]; intros acc; cbn [scan app].
  - now rewrite Hq.
  - destruct (pname x); [apply IH|reflexivity].
Qed.

Lemma monitor_stops_at_unreadable_name_witness :
  process_pids (_monitor_processes (TesseractTimeoutManager_init 1000) desktop) = [11].
Proof.
  exact (eq_trans
           (monitor_stops_at_unreadable_name (TesseractTimeoutManager_init 1000)
              [mk_process 10 (Some "gedit"%string) (Dies 5);
               mk_process 11 (Some "Tesseract-OCR"%string) (Dies 300)]
              [mk_process 13 (Some "tesseract"%string) (Dies 100)]
              (mk_process 12 None Denied) eq_refl)
           eq_refl).
Defined.

Lemma remove_process_incl (tb : proc_table) (p : N) : incl (remove_process tb p) tb.
Proof. intros q Hq. unfold remove_process in Hq. now apply filter_In in Hq. Qed.

Lemma remove_process_other (tb : proc_table) (p : N) (q : process) :
  In q tb -> pid q <> p -> In q (remove_process tb p).
Proof.
  intros Hq Hp. apply filter_In. split; [exact Hq|].
  apply negb_true_iff. now apply N.eqb_neq.
Qed.

Lemma remove_process_gone (tb : proc_table) (q : process) :
  ~ In q (remove_process tb (pid q)).
Proof.
  intros H. apply filter_In in H as [_ H]. now rewrite N.eqb_refl in H.
Qed.

Lemma cleanup_one_incl (tb : proc_table) (p : N) : incl (fst (cleanup_one tb p)) tb.
Proof.
  unfold cleanup_one.
  destruct (find_process tb p) as [q|]; [|apply incl_refl].
  destruct (pname q) as [n|]; [|apply incl_refl].
  destruct (is_tesseract n); [|apply incl_refl].
  destruct (on_term q) as [d|]; [|apply incl_refl].
  destruct (d <=? grace); [apply remove_process_incl|apply incl_refl].
Qed.

Lemma cleanup_one_other (tb : proc_table) (p : N) (q : process) :
  In q tb -> pid q <> p -> In q (fst (cleanup_one tb p)).
Proof.
  intros Hq Hp. unfold cleanup_one.
  destruct (find_process tb p) as [x|]; [|exact Hq].
  destruct (pname x) as [n|]; [|exact Hq].
  destruct (is_tesseract n); [|exact Hq].
  destruct (on_term x) as [d|]; [|exact Hq].
  destruct (d <=? grace); [now apply remove_process_other|exact Hq].
Qed.

Lemma cleanup_loop_incl (pids : list N) :
  forall tb, incl (fst (cleanup_loop tb pids)) tb.
Proof.
  induction pids as [|p pids IH]; intros tb; [apply incl_refl|].
  cbn [cleanup_loop].
  pose proof (cleanup_one_incl tb p) as H1.
  destruct (cleanup_one tb p) as [tb1 c1]. specialize (IH tb1).
  destruct (cleanup_loop tb1 pids) as [tb2 c2]. cbn [fst] in *.
  eapply incl_tran; eassumption.
Qed.

Lemma cleanup_loop_other (pids : list N) :
  forall tb q, In q tb -> ~ In (pid q) pids -> In q (fst (cleanup_loop tb pids)).
Proof.
  induction pids as [|p pids IH]; intros tb q Hq Hp; [exact Hq|].
  cbn [cleanup_loop].
  assert (H1 : In q (fst (cleanup_one tb p))).
  { apply cleanup_one_other; [exact Hq|]. intros He. apply Hp. left. now symmetry. }
  destruct (cleanup_one tb p) as [tb1 c1]. cbn [fst] in H1.
  assert (H2 : In q (fst (cleanup_loop tb1 pids))).
  { apply IH; [exact H1|]. intros H. apply Hp. now right. }
  destruct (cleanup_loop tb1 pids) as [tb2 c2]. exact H2.
Qed.

(** X5: [_cleanup_processes] only takes processes out of the table, and
    never one whose pid it does not track. *)
Theorem cleanup_spares_untracked (self : TesseractTimeoutManager) (tb : proc_table) :
  incl (fst (_cleanup_processes self tb)) tb /\
  (forall q, In q tb -> ~ In (pid q) (process_pids self) ->
     In q (fst (_cleanup_processes self tb))).
Proof.
  split; [apply cleanup_loop_incl|]. intros q. apply cleanup_loop_other.
Qed.

Lemma cleanup_spares_untracked_witness :
  In (mk_process 13 (Some "tesseract"%string) (Dies 100))
     (fst (_cleanup_processes (mk_manager 1000 PyNone None [11]) desktop)).
Proof.
  destruct (cleanup_spares_untracked (mk_manager 1000 PyNone None [11]) desktop)
    as [_ H].
  apply H.
  - cbn. tauto.
  - cbn. intros [H1|[]]. discriminate.
Defined.

Lemma unique_pid (tb : proc_table) (q x : process) :
  NoDup (map pid tb) -> In q tb -> In x tb -> pid x = pid q -> x = q.
Proof.
  induction tb as [|y tb IH]; intros Hnd Hq Hx He; [destruct Hq|].
  cbn [map] in Hnd. inversion Hnd as [|? ? Hy Hnd']; subst.
  destruct Hq as [->|Hq], Hx as [->|Hx]; try reflexivity.
  - exfalso. apply Hy. rewrite <- He. now apply in_map.
  - exfalso. apply Hy. rewrite He. now apply in_map.
  - now apply IH.
Qed.

Lemma find_process_unique (tb : proc_table) (q : process) :
  NoDup (map pid tb) -> In q tb -> find_process tb (pid q) = Some q.
Proof.
  intros Hnd Hq. unfold find_process.
  destruct (find (fun x => pid x =? pid q) tb) as [x|] eqn:Hf.
  - apply find_some in Hf as [Hx He]. apply N.eqb_eq in He.
    f_equal. now apply (unique_pid tb q x).
  - pose proof (find_none _ _ Hf q Hq) as H. cbn in H.
    now rewrite N.eqb_refl in H.
Qed.

Lemma filter_pids_NoDup (g : process -> bool) (tb : proc_table) :
  NoDup (map pid tb) -> NoDup (map pid (filter g tb)).
Proof.
  induction tb as [|y tb IH]; intros Hnd; [constructor|].
  cbn [map] in Hnd. inversion Hnd as [|? ? Hy Hnd']; subst.
  cbn [filter]. destruct (g y); [|now apply IH].
  cbn [map]. constructor; [|now apply IH].
  intros H. apply Hy. apply in_map_iff in H as (x & Hx & Hin).
  apply filter_In in Hin as [Hin _]. rewrite <- Hx. now apply in_map.
Qed.

Lemma cleanup_one_NoDup (tb : proc_table) (p : N) :
  NoDup (map pid tb) -> NoDup (map pid (fst (cleanup_one tb p))).
Proof.
  intros Hnd. unfold cleanup_one.
  destruct (find_process tb p) as [q|]; [|exact Hnd].
  destruct (pname q) as [n|]; [|exact Hnd].
  destruct (is_tesseract n); [|exact Hnd].
  destruct (on_term q) as [d|]; [|exact Hnd].
  destruct (d <=? grace); [now apply filter_pids_NoDup|exact Hnd].
Qed.

Lemma cleanup_one_spares (tb : proc_table) (p : N) (q : process) :
  NoDup (map pid tb) -> In q tb -> not_tesseract q = true ->
  In q (fst (cleanup_one tb p)).
Proof.
  intros Hnd Hq Hn. destruct (N.eq_dec (pid q) p) as [<-|Hp].
  - unfold cleanup_one. rewrite (find_process_unique tb q Hnd Hq).
    unfold not_tesseract in Hn. destruct (pname q) as [n|]; [|exact Hq].
    apply negb_true_iff in Hn. rewrite Hn. exact Hq.
  - now apply cleanup_one_other.
Qed.

Lemma cleanup_loop_NoDup (pids : list N) :
  forall tb, NoDup (map pid tb) -> NoDup (map pid (fst (cleanup_loop tb pids))).
Proof.
  induction pids as [|p pids IH]; intros tb Hnd; [exact Hnd|].
  cbn [cleanup_loop].
  pose proof (cleanup_one_NoDup tb p Hnd) as H1.
  destruct (cleanup_one tb p) as [tb1 c1]. cbn [fst] in H1.
  specialize (IH tb1 H1). destruct (cleanup_loop tb1 pids) as [tb2 c2]. exact IH.
Qed.

Lemma cleanup_loop_spares (pids : list N) :
  forall tb q, NoDup (map pid tb) -> In q tb -> not_tesseract q = true ->
    In q (fst (cleanup_loop tb pids)).
Proof.
  induction pids as [|p pids IH]; intros tb q Hnd Hq Hn; [exact Hq|].
  cbn [cleanup_loop].
  pose proof (cleanup_one_NoDup tb p Hnd) as H0.
  pose proof (cleanup_one_spares tb p q Hnd Hq Hn) as H1.
  destruct (cleanup_one tb p) as [tb1 c1]. cbn [fst] in H0, H1.
  specialize (IH tb1 q H0 H1 Hn). destruct (cleanup_loop tb1 pids) as [tb2 c2].
  exact IH.
Qed.

Lemma cleanup_one_removes (tb : proc_table) (q : process) :
  NoDup (map pid tb) -> In q tb -> yielding_tesseract q = true ->
  ~ In q (fst (cleanup_one tb (pid q))).
Proof.
  intros Hnd Hq Hy. unfold cleanup_one. rewrite (find_process_unique tb q Hnd Hq).
  unfold yielding_tesseract in Hy.
  destruct (pname q) as [n|]; [|discriminate].
  destruct (on_term q) as [d|]; [|discriminate].
  apply andb_true_iff in Hy as [-> ->]. apply remove_process_gone.
Qed.

Lemma cleanup_loop_removes (pids : list N) :
  forall tb q, NoDup (map pid tb) -> yielding_tesseract q = true ->
    In (pid q) pids -> ~ In q (fst (cleanup_loop tb pids)).
Proof.
  induction pids as [|p pids IH]; intros tb q Hnd Hy Hp; [destruct Hp|].
  cbn [cleanup_loop].
  pose proof (cleanup_one_NoDup tb p Hnd) as H0.
  pose proof (cleanup_one_incl tb p) as H1.
  assert (H2 : p = pid q -> In q tb -> ~ In q (fst (cleanup_one tb p)))
    by (intros -> Hq; now apply cleanup_one_removes).
  destruct (cleanup_one tb p) as [tb1 c1]. cbn [fst] in H0, H1, H2.
  pose proof (cleanup_loop_incl pids tb1) as H3.
  pose proof (IH tb1 q H0 Hy) as H4.
  destruct (cleanup_loop tb1 pids) as [tb2 c2]. cbn [fst] in *.
  intros Hin. destruct Hp as [Hp|Hp].
  - apply (H2 Hp); [apply H1|]; now apply H3.
  - now apply H4.
Qed.

Lemma run_with_timeout_table (self : TesseractTimeoutManager) (tb : proc_table)
    (func : callable) (args : list pyval) (kwargs : list (string * pyval)) :
  run_table (run_with_timeout self tb func args kwargs)
  = fst (cleanup_loop tb (scan tb [])).
Proof.
  unfold run_with_timeout, _target_function.
  destruct (func args kwargs) as [d r|].
  - unfold _cleanup_processes.
    destruct r as [v|e]; [|destruct (isinstance_Exception e)]; cbn;
      destruct (cleanup_loop tb (scan tb [])) as [tb' c] eqn:Hc; cbn;
      destruct (Z.of_N (d + c) <=? timeout self)%Z; cbn;
      unfold timed_out, _cleanup_processes;
      repeat match goal with
             | |- context [if ?b then _ else _] => destruct b; cbn
             end; try rewrite Hc; try reflexivity.
  - unfold timed_out, _cleanup_processes. cbn.
    destruct (cleanup_loop tb (scan tb [])). reflexivity.
Qed.

(** X6: with distinct pids in the process table, a call of
    [run_with_timeout] terminates no process that was running when it
    started and whose name is not readable or does not contain
    "tesseract". *)
Theorem run_with_timeout_spares_other_processes
    (self : TesseractTimeoutManager) (tb : proc_table) (func : callable)
    (args : list pyval) (kwargs : list (string * pyval)) (q : process) :
  NoDup (map pid tb) ->
  In q tb ->
  not_tesseract q = true ->
  In q (run_table (run_with_timeout self tb func args kwargs)).
Proof.
  intros Hnd Hq Hn. rewrite run_with_timeout_table.
  now apply cleanup_loop_spares.
Qed.

Lemma run_with_timeout_spares_other_processes_witness :
  In (mk_process 10 (Some "gedit"%string) (Dies 5))
     (run_table (run_with_timeout (TesseractTimeoutManager_init 1000) desktop
                   never_returns [] [])).
Proof.
  apply (run_with_timeout_spares_other_processes (TesseractTimeoutManager_init 1000)
           desktop never_returns [] []).
  - cbn. repeat constructor; cbn; intuition discriminate.
  - now left.
  - reflexivity.
Defined.

(** X7: with distinct pids and every name readable, a call of
    [run_with_timeout] terminates every tesseract process that was
    running when it started and exits within the grace period, whether
    the callable returns, raises or hangs. *)
Theorem run_with_timeout_terminates_running_tesseract
    (self : TesseractTimeoutManager) (tb : proc_table) (func : callable)
    (args : list pyval) (kwargs : list (string * pyval)) (q : process) :
  NoDup (map pid tb) ->
  forallb readable tb = true ->
  In q tb ->
  yielding_tesseract q = true ->
  ~ In q (run_table (run_with_timeout self tb func args kwargs)).
Proof.
  intros Hnd Hr Hq Hy. rewrite run_with_timeout_table.
  apply cleanup_loop_removes; try assumption.
  unfold yielding_tesseract in Hy.
  destruct (pname q) as [n|] eqn:Hn; [|discriminate].
  destruct (on_term q) as [d|]; [|discriminate].
  apply andb_true_iff in Hy as [Ht _].
  now apply (scan_complete tb Hr [] q n).
Qed.

Lemma run_with_timeout_terminates_running_tesseract_witness :
  ~ In (tesseract_proc 7 (Dies 300))
       (run_table (run_with_timeout (TesseractTimeoutManager_init 1000)
                     [mk_process 10 (Some "gedit"%string) (Dies 5);
                      tesseract_proc 7 (Dies 300)]
                     (returns_after 100 (PyInt 42)) [] [])).
Proof.
  apply (run_with_timeout_terminates_running_tesseract (TesseractTimeoutManager_init 1000)
           [mk_process 10 (Some "gedit"%string) (Dies 5); tesseract_proc 7 (Dies 300)]
           (returns_after 100 (PyInt 42)) [] [] (tesseract_proc 7 (Dies 300))).
  - cbn. repeat constructor; cbn; intuition discriminate.
  - reflexivity.
  - right. now left.
  - reflexivity.
Defined.

Lemma run_with_timeout_elapsed (self : TesseractTimeoutManager) (tb : proc_table)
    (func : callable) (args : list pyval) (kwargs : list (string * pyval)) :
  run_elapsed (run_with_timeout self tb func args kwargs)
  = match func args kwargs with
    | Finishes d _ =>
        if (Z.of_N (d + cleanup_cost tb) <=? timeout self)%Z
        then d + cleanup_cost tb
        else Z.to_N (timeout self) + cleanup_cost tb
    | Hangs => Z.to_N (timeout self) + cleanup_cost tb
    end.
Proof.
  unfold run_with_timeout, _target_function.
  destruct (func args kwargs) as [d r|].
  - unfold _cleanup_processes, cleanup_cost.
    destruct r as [v|e]; [|destruct (isinstance_Exception e)]; cbn;
      destruct (cleanup_loop tb (scan tb [])) as [tb' c] eqn:Hc; cbn;
      destruct (Z.of_N (d + c) <=? timeout self)%Z; cbn;
      try rewrite timed_out_elapsed;
      repeat match goal with
             | |- context [if ?b then _ else _] => destruct b; cbn
             end; try rewrite Hc; try reflexivity.
  - rewrite timed_out_elapsed. reflexivity.
Qed.

(** X8: whatever the callable does, the caller of [run_with_timeout]
    gets control back after at most the timeout plus the grace period
    of 2 s for each tracked process; and when the worker ends within
    the timeout, within the timeout. *)
Theorem run_with_timeout_wait_bound
    (self : TesseractTimeoutManager) (tb : proc_table) (func : callable)
    (args : list pyval) (kwargs : list (string * pyval)) :
  let r := run_with_timeout self tb func args kwargs in
  run_elapsed r
  <= Z.to_N (timeout self) + grace * N.of_nat (List.length (scan tb [])) /\
  (worker_within tb (func args kwargs) (timeout self) = true ->
   (Z.of_N (run_elapsed r) <= timeout self)%Z).
Proof.
  intros r. subst r. rewrite run_with_timeout_elapsed.
  pose proof (cleanup_loop_cost (scan tb []) tb) as Hc.
  fold (cleanup_cost tb) in Hc.
  destruct (func args kwargs) as [d o|]; cbn [worker_within].
  - destruct (_ <=? _)%Z eqn:Hw.
    + apply Z.leb_le in Hw. split; [lia|intros _; exact Hw].
    + split; [lia|discriminate].
  - split; [lia|discriminate].
Qed.

Lemma run_with_timeout_wait_bound_witness :
  (Z.of_N (run_elapsed (run_with_timeout (TesseractTimeoutManager_init 1000)
                          [tesseract_proc 7 (Dies 300)]
                          (returns_after 100 (PyInt 42)) [] [])) <= 1000)%Z.
Proof.
  apply (run_with_timeout_wait_bound (TesseractTimeoutManager_init 1000)
           [tesseract_proc 7 (Dies 300)] (returns_after 100 (PyInt 42)) [] []).
  reflexivity.
Defined.

(** ** Preprocessing, further *)

Lemma downscale_mode (cap : Z) (i j : image) :
  downscale cap i = Ret j -> img_mode j = img_mode i.
Proof.
  unfold downscale. destruct (_ || _)%bool; [|now intros [= <-]].
  destruct (new_size cap i) as [size|e]; [|discriminate].
  cbn [bind]. unfold resize.
  destruct (img_decode_error i); [discriminate|].
  destruct (_ || _)%bool; [discriminate|]. now intros [= <-].
Qed.

(** The step before the resize: the image as loaded, in the mode of the
    profile. *)
Lemma preprocess_steps (E : env) (a : image_arg) (i j : image) :
  load E a = Ret i ->
  (_preprocess_image E a = Ret j ->
   exists i', img_mode i' = "RGB"%string /\ img_width i' = img_width i /\
              img_height i' = img_height i /\ downscale 2000 i' = Ret j) /\
  (_preprocess_for_speed E a = Ret j ->
   exists i', img_mode i' = "L"%string /\ img_width i' = img_width i /\
              img_height i' = img_height i /\ downscale 1500 i' = Ret j).
Proof.
  intros Hl. unfold _preprocess_image, _preprocess_for_speed. rewrite Hl. cbn [bind].
  split.
  - destruct (String.eqb_spec (img_mode i) "RGB") as [Hm|_]; cbn [bind].
    + intros H. exists i. auto.
    + destruct (convert i "RGB") as [i'|e] eqn:Hc; [|discriminate]. cbn [bind].
      intros H. exists i'. destruct (convert_size i i' "RGB" Hc) as [Hw Hh].
      repeat split; try assumption.
      unfold convert in Hc. destruct (img_decode_error i); [discriminate|].
      now injection Hc as <-.
  - destruct (String.eqb_spec (img_mode i) "L") as [Hm|_]; cbn [bind].
    + intros H. exists i. auto.
    + destruct (convert i "L") as [i'|e] eqn:Hc; [|discriminate]. cbn [bind].
      intros H. exists i'. destruct (convert_size i i' "L" Hc) as [Hw Hh].
      repeat split; try assumption.
      unfold convert in Hc. destruct (img_decode_error i); [discriminate|].
      now injection Hc as <-.
Qed.

(** X9: the image [_preprocess_image] hands to the engine is in mode
    RGB, the one of [_preprocess_for_speed] in mode L, whatever the mode
    of the input. *)
Theorem preprocess_output_mode (E : env) (a : image_arg) (j : image) :
  (_preprocess_image E a = Ret j -> img_mode j = "RGB"%string) /\
  (_preprocess_for_speed E a = Ret j -> img_mode j = "L"%string).
Proof.
  destruct (load E a) as [i|e] eqn:Hl.
  - destruct (preprocess_steps E a i j Hl) as [H1 H2]. split; intros H.
    + destruct (H1 H) as (i' & Hm & _ & _ & Hd).
      now rewrite (downscale_mode 2000 i' j Hd).
    + destruct (H2 H) as (i' & Hm & _ & _ & Hd).
      now rewrite (downscale_mode 1500 i' j Hd).
  - unfold _preprocess_image, _preprocess_for_speed. rewrite Hl.
    split; discriminate.
Qed.

Lemma preprocess_output_mode_witness :
  _preprocess_image (env_with engine_hangs) (ArgImage gray_page)
  = Ret (mk_image "RGB" 800 600 None) /\
  img_mode (mk_image "RGB" 800 600 None) = "RGB"%string.
Proof.
  split; [reflexivity|].
  apply (preprocess_output_mode (env_with engine_hangs) (ArgImage gray_page)
           (mk_image "RGB" 800 600 None)).
  reflexivity.
Defined.

Lemma downscale_longer_side (cap : Z) (i j : image) :
  (1 <= cap <= 2000)%Z ->
  (0 <= img_width i < 2147483648)%Z ->
  (0 <= img_height i < 2147483648)%Z ->
  (img_width i > cap \/ img_height i > cap)%Z ->
  downscale cap i = Ret j ->
  (cap - 1 <= Z.max (img_width j) (img_height j) <= cap)%Z.
Proof.
  intros Hcap Hw Hh Hbig Hd.
  destruct (downscale_spec cap i j Hcap Hw Hh Hd) as [H _].
  destruct (H Hbig) as (Hjw & Hjh & Hpx).
  unfold within_one_pixel in Hpx. cbv zeta in Hpx.
  destruct Hpx as [[Hx1 Hx2] [Hy1 Hy2]].
  set (M := Z.max (img_width i) (img_height i)) in *.
  assert (HM : (cap < M)%Z) by (unfold M; lia).
  split; [|lia].
  destruct (Z.max_spec (img_width i) (img_height i)) as [[_ He]|[_ He]];
    fold M in He; rewrite <- He in *.
  - assert ((cap - 1) * M <= img_height j * M)%Z by lia.
    assert (cap - 1 <= img_height j)%Z by nia. lia.
  - assert ((cap - 1) * M <= img_width j * M)%Z by lia.
    assert (cap - 1 <= img_width j)%Z by nia. lia.
Qed.

(** X10: when an input of PIL's sizes is wider or taller than the cap,
    the longer side of the image handed to the engine is the cap or one
    pixel less: 2000 or 1999 for [_preprocess_image], 1500 or 1499 for
    [_preprocess_for_speed]. *)
Theorem preprocess_longer_side (E : env) (a : image_arg) (i j : image) :
  load E a = Ret i ->
  (0 <= img_width i < 2147483648)%Z ->
  (0 <= img_height i < 2147483648)%Z ->
  (_preprocess_image E a = Ret j ->
   (img_width i > 2000 \/ img_height i > 2000)%Z ->
   (1999 <= Z.max (img_width j) (img_height j) <= 2000)%Z) /\
  (_preprocess_for_speed E a = Ret j ->
   (img_width i > 1500 \/ img_height i > 1500)%Z ->
   (1499 <= Z.max (img_width j) (img_height j) <= 1500)%Z).
Proof.
  intros Hl Hw Hh. destruct (preprocess_steps E a i j Hl) as [H1 H2].
  split; intros H Hbig.
  - destruct (H1 H) as (i' & _ & Hiw & Hih & Hd).
    apply (downscale_longer_side 2000 i' j); try assumption; lia.
  - destruct (H2 H) as (i' & _ & Hiw & Hih & Hd).
    apply (downscale_longer_side 1500 i' j); try assumption; lia.
Qed.

Lemma preprocess_longer_side_witness :
  (1999 <= Z.max 1999 950 <= 2000)%Z.
Proof.
  destruct (preprocess_longer_side (env_with engine_hangs) (ArgImage banner) banner
              (mk_image "RGB" 1999 950 None) eq_refl) as [H _];
    [cbn; lia | cbn; lia |].
  apply H; [vm_compute; reflexivity | cbn; lia].
Defined.

(** X11: for an image of PIL's sizes so elongated that its shorter side,
    scaled, falls below one pixel, the size computed for the resize has
    a zero: the resize is asked for an empty image. *)
Theorem new_size_collapses (cap : Z) (i : image) :
  (1 <= cap <= 2000)%Z ->
  (1 <= img_width i < 2147483648)%Z ->
  (1 <= img_height i < 2147483648)%Z ->
  (Z.min (img_width i) (img_height i) * cap < Z.max (img_width i) (img_height i))%Z ->
  exists w' h', new_size cap i = Ret (w', h') /\ Z.min w' h' = 0%Z.
Proof.
  intros Hcap Hw Hh Hthin.
  destruct (new_size_spec cap i Hcap Hw Hh) as (w' & h' & Hn & Hpx).
  exists w', h'. split; [exact Hn|].
  unfold within_one_pixel in Hpx. cbv zeta in Hpx.
  destruct Hpx as [[Hx1 Hx2] [Hy1 Hy2]].
  set (M := Z.max (img_width i) (img_height i)) in *.
  assert (HM : (1 <= M)%Z) by (unfold M; lia).
  assert (Hw0 : (0 <= w')%Z) by nia.
  assert (Hh0 : (0 <= h')%Z) by nia.
  destruct (Z.min_spec (img_width i) (img_height i)) as [[_ He]|[_ He]];
    rewrite He in Hthin.
  - assert (w' < 1)%Z by nia. lia.
  - assert (h' < 1)%Z by nia. lia.
Qed.

Lemma new_size_collapses_witness :
  exists w' h', new_size 2000 ribbon = Ret (w', h') /\ Z.min w' h' = 0%Z.
Proof.
  apply (new_size_collapses 2000 ribbon); cbn; lia.
Defined.

(** ** The batch, further *)

Lemma extract_one_Ret (E : env) (self : WorkingOCRBatch) (tb : proc_table)
    (fast_mode : bool) (a : image_arg) :
  exists v self' tb', extract_one E self tb fast_mode a = (Ret v, self', tb').
Proof.
  destruct (extract_one_spec E self tb fast_mode a) as (self' & tb' & H & _).
  eauto.
Qed.





Lemma extract_one_frame (E : env) (self : WorkingOCRBatch) (tb : proc_table)
    (fast_mode : bool) (a : image_arg) :
  let self' := snd (fst (extract_one E self tb fast_mode a)) in
  if fast_mode then quick_ocr self' = quick_ocr self
  else fast_ocr self' = fast_ocr self.
Proof. unfold extract_one. destruct fast_mode; reflexivity. Qed.

Lemma process_loop_frame (E : env) (fast_mode : bool) (l : list image_arg) :
  forall (self : WorkingOCRBatch) (tb : proc_table) (i : N) (acc : list entry),
  let self' := batch_self (process_loop E self tb fast_mode i l acc) in
  if fast_mode then quick_ocr self' = quick_ocr self
  else fast_ocr self' = fast_ocr self.
Proof.
  induction l as [|x l IH]; intros self tb i acc.
  - cbn. destruct fast_mode; reflexivity.
  - cbn [process_loop].
    pose proof (extract_one_frame E self tb fast_mode x) as Hf.
    destruct (extract_one_Ret E self tb fast_mode x) as (v & self' & tb' & He).
    rewrite He in *. cbn [fst snd] in Hf.
    specialize (IH self' tb' (i + 1) (acc ++ [mk_entry i v (is_not_None v) None])).
    cbv zeta in *. destruct fast_mode; congruence.
Qed.

(** A batch uses one profile only: [process_images] leaves the quick
    profile untouched in fast mode and the fast profile untouched
    otherwise, transient manager state included. *)
Lemma process_images_frame
    (E : env) (self : WorkingOCRBatch) (tb : proc_table)
    (images : list image_arg) (fast_mode : bool) :
  let self' := batch_self (process_images E self tb images fast_mode) in
  if fast_mode then quick_ocr self' = quick_ocr self
  else fast_ocr self' = fast_ocr self.
Proof. apply process_loop_frame. Qed.

Lemma extract_text_table (E : env) (self : WorkingQuickOCR) (tb : proc_table)
    (a : image_arg) :
  ext_table (extract_text E self tb a) = tb \/
  ext_table (extract_text E self tb a) = fst (cleanup_loop tb (scan tb [])).
Proof.
  unfold extract_text. destruct (_preprocess_image E a) as [p|e]; [|now left].
  right. rewrite <- (run_with_timeout_table (quick_timeout_manager self) tb
                      (_ocr_operation E self) [PyImage p] []).
  destruct (run_outcome _); reflexivity.
Qed.

Lemma extract_screen_text_table (E : env) (self : WorkingFastScreenOCR)
    (tb : proc_table) (a : image_arg) :
  ext_table (extract_screen_text E self tb a) = tb \/
  ext_table (extract_screen_text E self tb a) = fst (cleanup_loop tb (scan tb [])).
Proof.
  unfold extract_screen_text. destruct (_preprocess_for_speed E a) as [p|e]; [|now left].
  right. rewrite <- (run_with_timeout_table (fast_timeout_manager self) tb
                      (_fast_ocr_operation E self) [PyImage p] []).
  destruct (run_outcome _); reflexivity.
Qed.

Lemma table_step_spares (tb tb' : proc_table) :
  tb' = tb \/ tb' = fst (cleanup_loop tb (scan tb [])) ->
  NoDup (map pid tb) ->
  NoDup (map pid tb') /\
  (forall q, In q tb -> not_tesseract q = true -> In q tb').
Proof.
  intros [->| ->] Hnd.
  - split; [exact Hnd|auto].
  - split; [now apply cleanup_loop_NoDup|].
    intros q Hq Hn. now apply cleanup_loop_spares.
Qed.

Lemma extract_one_table (E : env) (self : WorkingOCRBatch) (tb : proc_table)
    (fast_mode : bool) (a : image_arg) :
  let tb' := snd (extract_one E self tb fast_mode a) in
  tb' = tb \/ tb' = fst (cleanup_loop tb (scan tb [])).
Proof.
  unfold extract_one. destruct fast_mode; cbn [snd].
  - apply extract_screen_text_table.
  - apply extract_text_table.
Qed.

Lemma process_loop_spares (E : env) (fast_mode : bool) (l : list image_arg) :
  forall (self : WorkingOCRBatch) (tb : proc_table) (i : N) (acc : list entry)
         (q : process),
  NoDup (map pid tb) -> In q tb -> not_tesseract q = true ->
  In q (batch_table (process_loop E self tb fast_mode i l acc)).
Proof.
  induction l as [|x l IH]; intros self tb i acc q Hnd Hq Hn.
  - exact Hq.
  - cbn [process_loop].
    pose proof (extract_one_table E self tb fast_mode x) as Ht.
    destruct (extract_one_Ret E self tb fast_mode x) as (v & self' & tb1 & He).
    rewrite He in *. cbn [snd] in Ht.
    destruct (table_step_spares tb tb1 Ht Hnd) as (Hnd1 & Hs1).
    apply IH; [exact Hnd1 | now apply Hs1 | exact Hn].
Qed.

(** X13: with distinct pids in the process table, a whole batch, like
    every profile call in it, terminates no process that was running
    when it started and whose name is not readable or does not contain
    "tesseract". *)
Theorem process_images_spares_other_processes
    (E : env) (self : WorkingOCRBatch) (tb : proc_table)
    (images : list image_arg) (fast_mode : bool) (q : process) :
  NoDup (map pid tb) ->
  In q tb ->
  not_tesseract q = true ->
  In q (batch_table (process_images E self tb images fast_mode)).
Proof. apply process_loop_spares. Qed.

Lemma process_images_spares_other_processes_witness :
  In (mk_process 10 (Some "gedit"%string) (Dies 5))
     (batch_table (process_images (env_with engine_hangs) (WorkingOCRBatch_init 10000)
                     desktop [ArgImage test_img; ArgImage photo] false)).
Proof.
  apply (process_images_spares_other_processes (env_with engine_hangs)
           (WorkingOCRBatch_init 10000) desktop
           [ArgImage test_img; ArgImage photo] false).
  - cbn. repeat constructor; cbn; intuition discriminate.
  - now left.
  - reflexivity.
Defined.

Lemma extractors_shape_quick (E : env) (q : WorkingQuickOCR) (tb : proc_table)
    (a : image_arg) :
  exists v, ext_outcome (extract_text E q tb a) = Ret v /\
            (v = PyNone \/ exists t, v = PyStr t /\ trimmed t = true).
Proof.
  rewrite extract_text_outcome.
  destruct (_preprocess_image E a) as [p|e]; [|eexists; split; [reflexivity|now left]].
  eexists. split; [reflexivity|].
  destruct (profile_value_shape tb (image_to_string E p (quick_tesseract_config q))
              (timeout (quick_timeout_manager q)))
    as [H|(t & d & s & pre & post & Hv & Ht & _)]; [now left|right; eauto].
Qed.

Lemma extractors_shape_fast (E : env) (f : WorkingFastScreenOCR) (tb : proc_table)
    (a : image_arg) :
  exists v, ext_outcome (extract_screen_text E f tb a) = Ret v /\
            (v = PyNone \/ exists t, v = PyStr t /\ trimmed t = true).
Proof.
  rewrite extract_screen_text_outcome.
  destruct (_preprocess_for_speed E a) as [p|e]; [|eexists; split; [reflexivity|now left]].
  eexists. split; [reflexivity|].
  destruct (profile_value_shape tb (image_to_string E p (fast_tesseract_config f))
              (timeout (fast_timeout_manager f)))
    as [H|(t & d & s & pre & post & Hv & Ht & _)]; [now left|right; eauto].
Qed.

(** ** The self-test and the monitoring caller *)

(** X14: [test_ocr_fix] never raises; it reports failure when the
    engine fails on both calls, and success when the engine reads, in
    time, a text that is not blank on the first call. *)
Theorem test_ocr_fix_verdict (E : env) (tb : proc_table) :
  (exists b, fst (test_ocr_fix E tb) = Ret b) /\
  (engine_failed (image_to_string E test_img "--oem 3 --psm 6") 15000 = true ->
   engine_failed (image_to_string E (mk_image "L" 400 100 None) fast_config) 8000 = true ->
   fst (test_ocr_fix E tb) = Ret false) /\
  (forall d s,
     image_to_string E test_img "--oem 3 --psm 6" = Finishes d (Ret s) ->
     (Z.of_N (d + cleanup_cost tb) <= 15000)%Z ->
     all_space s = false ->
     fst (test_ocr_fix E tb) = Ret true).
Proof.
  unfold test_ocr_fix.
  rewrite extract_text_outcome, extract_screen_text_outcome.
  change (_preprocess_image E (ArgImage test_img)) with (Ret (A := image) test_img).
  change (_preprocess_for_speed E (ArgImage test_img))
    with (Ret (A := image) (mk_image "L" 400 100 None)).
  cbn [quick_tesseract_config quick_timeout_manager WorkingQuickOCR_init
       fast_tesseract_config fast_timeout_manager WorkingFastScreenOCR_init
       TesseractTimeoutManager_init timeout fst].
  split; [eexists; reflexivity|]. split.
  - intros H1 H2.
    rewrite (profile_value_failed tb _ _ (or_introl H1)).
    rewrite (profile_value_failed _ _ _ (or_introl H2)). reflexivity.
  - intros d s Hs Hw Hb. rewrite Hs. unfold profile_value at 1.
    apply Z.leb_le in Hw. rewrite Hw.
    destruct (strip s) as [|c t] eqn:Hst.
    + apply strip_all_space in Hst. congruence.
    + cbn [filter truthy]. destruct (truthy _); reflexivity.
Qed.

Lemma test_ocr_fix_verdict_witness :
  fst (test_ocr_fix (env_with engine_hangs) desktop) = Ret false /\
  fst (test_ocr_fix (env_with (engine_reads "OCR Timeout Fix Test - Working!")) desktop)
  = Ret true.
Proof.
  split.
  - apply (test_ocr_fix_verdict (env_with engine_hangs) desktop); reflexivity.
  - destruct (test_ocr_fix_verdict
                (env_with (engine_reads "OCR Timeout Fix Test - Working!")) desktop)
      as (_ & _ & H).
    apply (H 50 (codes "OCR Timeout Fix Test - Working!"));
      [reflexivity | vm_compute; discriminate | reflexivity].
Defined.

Lemma handle_screen_profile (v : pyval) : handle_screen (Ret v) = Ret v.
Proof. reflexivity. Qed.

(** X15: [extract_screen_text_safe] never raises; it returns None
    without a screenshot when OCR or screen capture is not available,
    None when the screenshot fails, and otherwise None or a text that is
    not empty and has no white space at either end. *)
Theorem extract_screen_text_safe_total (E : env)
    (OCR_AVAILABLE SCREEN_CAPTURE_AVAILABLE : bool) (grab : open_result)
    (self : AdvancedMonitoringSystem) (tb : proc_table) (fast_mode : bool) :
  exists v,
    fst (fst (extract_screen_text_safe E OCR_AVAILABLE SCREEN_CAPTURE_AVAILABLE grab
                self tb fast_mode)) = Ret v /\
    (v = PyNone \/ exists t, v = PyStr t /\ trimmed t = true) /\
    (OCR_AVAILABLE && SCREEN_CAPTURE_AVAILABLE = false -> v = PyNone) /\
    (forall t name msg, grab = OpenFailed t name msg -> v = PyNone).
Proof.
  unfold extract_screen_text_safe.
  destruct OCR_AVAILABLE, SCREEN_CAPTURE_AVAILABLE; cbn [negb orb andb fst];
    try (exists PyNone; repeat split; auto; fail).
  destruct grab as [screen|t name msg].
  - assert (Hq : forall q,
              exists v, ext_outcome (extract_text E q tb (ArgImage screen)) = Ret v /\
                        (v = PyNone \/ exists t, v = PyStr t /\ trimmed t = true)).
    { intros q.
      destruct (extractors_shape_quick E q tb (ArgImage screen)) as (v & Hv & Hs).
      eauto. }
    assert (Hf : forall f,
              exists v, ext_outcome (extract_screen_text E f tb (ArgImage screen)) = Ret v /\
                        (v = PyNone \/ exists t, v = PyStr t /\ trimmed t = true)).
    { intros f.
      destruct (extractors_shape_fast E f tb (ArgImage screen)) as (v & Hv & Hs).
      eauto. }
    destruct fast_mode, (ocr_fast self) as [f|], (ocr_quick self) as [q|]; cbn [fst];
      try (destruct (Hf f) as (v & -> & Hs); exists v; repeat split;
           [exact Hs | discriminate | discriminate]);
      try (destruct (Hq q) as (v & -> & Hs); exists v; repeat split;
           [exact Hs | discriminate | discriminate]);
      exists PyNone; repeat split; auto; discriminate.
  - exists PyNone. destruct t; cbn; repeat split; auto.
Qed.

Lemma extract_screen_text_safe_total_witness :
  fst (fst (extract_screen_text_safe (env_with engine_hangs) true false
              (Opened screenshot) (AdvancedMonitoringSystem_init true) [] true))
  = Ret PyNone.
Proof.
  destruct (extract_screen_text_safe_total (env_with engine_hangs) true false
              (Opened screenshot) (AdvancedMonitoringSystem_init true) [] true)
    as (v & Hv & _ & H & _).
  rewrite Hv. f_equal. apply H. reflexivity.
Defined.

(** ** The import splitter of the integration helper *)

Lemma split_on_cons (c : N) (s : str) : exists l ls, split_on c s = l :: ls.
Proof.
  destruct s as [|x s]; cbn [split_on]; [eauto|].
  destruct (x =? c); [eauto|]. destruct (split_on c s); eauto.
Qed.

Lemma join_cons (sep l : str) (ls : list str) :
  ls <> [] -> join sep (l :: ls) = l ++ sep ++ join sep ls.
Proof. destruct ls; [now intros []|reflexivity]. Qed.

(** Joining what was split gives the text back. *)
Lemma join_split_on (c : N) (s : str) : join [c] (split_on c s) = s.
Proof.
  induction s as [|x s IH]; [reflexivity|].
  cbn [split_on]. destruct (N.eqb_spec x c) as [->|Hx].
  - destruct (split_on_cons c s) as (l & ls & Hs).
    rewrite join_cons by (rewrite Hs; discriminate). now rewrite IH.
  - destruct (split_on c s) as [|l ls]; [cbn in *; now subst|].
    destruct ls as [|l' ls].
    + cbn in *. now rewrite IH.
    + rewrite join_cons by discriminate. rewrite join_cons in IH by discriminate.
      rewrite <- IH. reflexivity.
Qed.

Lemma startswith_solid (p s : str) (c : N) :
  startswith (c :: p) s = true -> is_space c = false -> all_space s = false.
Proof.
  destruct s as [|b s]; cbn [startswith]; [discriminate|].
  intros H Hc. apply andb_true_iff in H as [H _]. apply N.eqb_eq in H. subst b.
  unfold all_space. cbn [forallb]. now rewrite Hc.
Qed.

Lemma import_like_solid (line : str) : import_like line = true -> solid line = true.
Proof.
  unfold import_like, solid, blank. intros H.
  assert (Hs : all_space line = false).
  { apply orb_true_iff in H as [H|H]; [apply orb_true_iff in H as [H|H]|].
    - now apply (startswith_solid _ _ _ H).
    - now apply (startswith_solid _ _ _ H).
    - destruct (all_space line) eqn:Ha; [|reflexivity].
      apply strip_all_space in Ha. rewrite Ha in H. discriminate. }
  destruct (strip line) eqn:Hst; [|reflexivity].
  apply strip_all_space in Hst. congruence.
Qed.

Lemma filter_solid_blank (l : list str) : filter solid (l ++ [[]]) = filter solid l.
Proof. rewrite filter_app. cbn. apply app_nil_r. Qed.

Lemma filter_snoc {A} (f : A -> bool) (l : list A) (x : A) :
  filter f (l ++ [x]) = filter f l ++ (if f x then [x] else []).
Proof. rewrite filter_app. reflexivity. Qed.

Lemma split_step_routes (st : split_state) (line : str) :
  filter solid (import_lines (split_step st line))
  = filter solid (import_lines st) ++ (if import_like line then [line] else []) /\
  filter solid (other_lines (split_step st line))
  = filter solid (other_lines st)
    ++ (if solid line && negb (import_like line) then [line] else []).
Proof.
  unfold split_step. destruct (import_like line) eqn:Hi.
  - cbn [import_lines other_lines]. rewrite filter_snoc, (import_like_solid line Hi).
    rewrite andb_false_r, app_nil_r. split; reflexivity.
  - rewrite andb_true_r.
    destruct (found_import_section st && blank line) eqn:Hb;
      cbn [import_lines other_lines].
    + apply andb_true_iff in Hb as [_ Hb].
      assert (Hs : solid line = false) by (unfold solid; now rewrite Hb).
      rewrite filter_snoc, Hs. cbn [andb].
      rewrite !app_nil_r. split; reflexivity.
    + rewrite filter_snoc. split; [|reflexivity].
      destruct (found_import_section st && negb (blank (last (import_lines st) []))).
      * rewrite filter_solid_blank, app_nil_r. reflexivity.
      * rewrite app_nil_r. reflexivity.
Qed.

Lemma split_fold_routes (lines : list str) :
  forall st,
    let st' := fold_left split_step lines st in
    filter solid (import_lines st')
    = filter solid (import_lines st) ++ filter import_like lines /\
    filter solid (other_lines st')
    = filter solid (other_lines st)
      ++ filter (fun l => solid l && negb (import_like l)) lines.
Proof.
  induction lines as [|line lines IH]; intros st; cbn [fold_left filter].
  - now rewrite !app_nil_r.
  - destruct (IH (split_step st line)) as [H1 H2]. cbv zeta. rewrite H1, H2.
    destruct (split_step_routes st line) as [-> ->].
    rewrite <- !app_assoc.
    split; f_equal;
      [destruct (import_like line) | destruct (solid line && negb (import_like line))];
      reflexivity.
Qed.

(** X16: the loop of [apply_fixes_to_file] routes every line that is
    not blank by the import test alone: the lines that start with
    "import " or "from ", or whose text starts with "try:", go before
    the inserted section, wherever they stood, and all other such lines
    after it, each group in its original order. *)
Theorem split_imports_routes (content : str) :
  let lines := split_on newline content in
  filter solid (import_lines (split_imports content)) = filter import_like lines /\
  filter solid (other_lines (split_imports content))
  = filter (fun l => solid l && negb (import_like l)) lines.
Proof.
  apply (split_fold_routes (split_on newline content) (mk_split [] [] false)).
Qed.

Lemma split_fold_plain (lines : list str) :
  forallb (fun l => negb (import_like l)) lines = true ->
  forall other,
    fold_left split_step lines (mk_split [] other false)
    = mk_split [] (other ++ lines) false.
Proof.
  induction lines as [|line lines IH]; intros Hp other; cbn [fold_left].
  - now rewrite app_nil_r.
  - cbn [forallb] in Hp. apply andb_true_iff in Hp as [Hl Hp].
    apply negb_true_iff in Hl. unfold split_step at 2. rewrite Hl.
    cbn [found_import_section andb import_lines other_lines].
    rewrite (IH Hp), <- app_assoc. reflexivity.
Qed.

(** X17: for a text none of whose lines passes the import test, the
    rebuilt text is the inserted section, a newline, and the text
    itself, unchanged. *)
Theorem new_content_without_imports (import_section content : str) :
  forallb (fun l => negb (import_like l)) (split_on newline content) = true ->
  new_content import_section content = import_section ++ [newline] ++ content.
Proof.
  intros Hp. unfold new_content, split_imports.
  rewrite (split_fold_plain _ Hp []). cbn [import_lines other_lines join app].
  now rewrite join_split_on.
Qed.

Lemma new_content_without_imports_witness :
  new_content (codes "# fix") (codes "x = 1") = codes "# fix" ++ [newline] ++ codes "x = 1".
Proof.
  apply (new_content_without_imports (codes "# fix") (codes "x = 1")). reflexivity.
Defined.
